(** * The C2 controller and its agent runtime: ledger, delivery and execution policy

    A shallow embedding of [c2_server.py] (the Flask/SQLite controller) and of
    the agent of [c2_agent.py] ([execute_command], the check-in loop and the
    push handler), followed by the properties of the command ledger, of the
    two delivery paths, of the operator views and of the execution policy.

    Conventions of the embedding.
    - A table is the list of its rows in rowid (insertion) order.
    - TEXT columns are strings, INTEGER columns are [Z]; a TIMESTAMP is the
      number of seconds it denotes, so that comparing two timestamps is
      comparing two integers. [CURRENT_TIMESTAMP] is the argument [now].
    - Values drawn from outside the program ([uuid.uuid4()], the Fernet key)
      are arguments of the handler that draws them.
    - A handler returns its HTTP response, the new state and the socket.io
      events it emitted. The body of a registration is the JSON value that
      [request.get_json()] returns; the bodies of the other requests are the
      fields that the handler reads with [data.get].
    - The requests of a run are served one after the other. What can happen
      when the statements of two handlers interleave is stated separately,
      on the steps of the handlers concerned.
    - The [jwt_required] check in front of the operator endpoints is not
      modelled: the handlers below are the bodies that run for an
      authenticated operator. The tables [admin_users] and [sessions], which
      no agent or command handler reads, are left out, and so is the
      [details] blob of an activity log row. *)

From stdpp Require Import base numbers list strings gmap sorting pretty.

Open Scope string_scope.
Open Scope Z_scope.

(** ** JSON values and what SQLite makes of them *)

(** A value as [json.loads] builds it. A float is given by what SQLite keeps
    of it in a TEXT column: its text, or NULL for a NaN. An object is the
    list of the items of the dict. *)
Local Unset Elimination Schemes.
Inductive Json : Type :=
| JNull
| JBool (b : bool)
| JInt (z : Z)
| JFloat (stored : option string)
| JString (s : string)
| JArray (items : list Json)
| JObject (fields : list (string * Json)).
Local Set Elimination Schemes.

(** [fields.get(key)] *)
Definition json_get (key : string) (fields : list (string * Json)) : option Json :=
  snd <$> find (λ kv, bool_decide (kv.1 = key)) fields.

(** The integers that SQLite holds: for a Python int outside the signed
    64-bit range [cursor.execute] raises [OverflowError]. *)
Definition sqlite_integer (z : Z) : Prop := - 2 ^ 63 ≤ z < 2 ^ 63.

(** A value bound as parameter for a TEXT column: what the column holds
    afterwards ([None] inside is NULL), or [None] when [cursor.execute]
    raises. Numbers are kept as their text; lists and dicts are no
    parameters that sqlite3 accepts. *)
Definition bind_text (v : Json) : option (option string) :=
  match v with
  | JNull => Some None
  | JBool b => Some (Some (if b then "1" else "0"))
  | JInt z => if bool_decide (sqlite_integer z) then Some (Some (pretty z)) else None
  | JFloat stored => Some stored
  | JString s => Some (Some s)
  | JArray _ | JObject _ => None
  end.

(** ** Rows of the tables created by [C2Database.init_database] *)

Module agents.
Record row := mk {
  id : string;
  hostname : option string;      (* [None] is NULL *)
  username : option string;
  os_info : option string;
  ip_address : string;
  first_seen : Z;
  last_seen : Z;
  status : string;
  encryption_key : string;
  capabilities : Json            (* held as its [json.dumps] text *)
}.
End agents.

Module commands.
Record row := mk {
  id : Z;
  agent_id : string;
  command : string;
  status : string;
  created_at : Z;
  executed_at : option Z;
  result : option string
}.
End commands.

Module activity_logs.
Record row := mk {
  timestamp : Z;
  level : string;
  source : string;
  message : string
}.
End activity_logs.

(** The database file together with the module-level dictionary
    [connected_agents] (agent id to socket.io session id).
    [commands_seq] is the [sqlite_sequence] entry of the AUTOINCREMENT key of
    [commands]: the largest id ever handed out (ids are taken to stay below
    the 2^63 at which SQLite refuses to insert). *)
Record State := mkState {
  tbl_agents : list agents.row;
  tbl_commands : list commands.row;
  commands_seq : Z;
  tbl_activity_logs : list activity_logs.row;
  connected_agents : gmap string string
}.

(** The freshly initialised server. *)
Definition init : State :=
  {| tbl_agents := []; tbl_commands := []; commands_seq := 0;
     tbl_activity_logs := []; connected_agents := ∅ |}.

(** What a Flask view returns: a JSON body with status 200, or an error
    message with its status code. *)
Inductive Response (A : Type) : Type :=
| OK (body : A)
| Error (code : Z) (error : string).
Arguments OK {A} body.
Arguments Error {A} code error.

(** Events passed to [socketio.emit]. *)
Inductive Emit : Type :=
| new_command (room : string) (command_id : Z) (command : string)
| command_result (room : string) (agent_id : string)
    (command_id : option Z) (result : option string)
| agent_online (room : string) (agent_id : string)
| status_message (message : string).

(** ** Helpers shared by the handlers *)

(** [db.log_activity(level, source, message)] *)
Definition log_activity (now : Z) (level source message : string) (s : State) : State :=
  {| tbl_agents := tbl_agents s;
     tbl_commands := tbl_commands s;
     commands_seq := commands_seq s;
     tbl_activity_logs :=
       tbl_activity_logs s ++ [activity_logs.mk now level source message];
     connected_agents := connected_agents s |}.

Definition set_agents (l : list agents.row) (s : State) : State :=
  {| tbl_agents := l;
     tbl_commands := tbl_commands s;
     commands_seq := commands_seq s;
     tbl_activity_logs := tbl_activity_logs s;
     connected_agents := connected_agents s |}.

Definition set_commands (l : list commands.row) (s : State) : State :=
  {| tbl_agents := tbl_agents s;
     tbl_commands := l;
     commands_seq := commands_seq s;
     tbl_activity_logs := tbl_activity_logs s;
     connected_agents := connected_agents s |}.

Definition set_connected (m : gmap string string) (s : State) : State :=
  {| tbl_agents := tbl_agents s;
     tbl_commands := tbl_commands s;
     commands_seq := commands_seq s;
     tbl_activity_logs := tbl_activity_logs s;
     connected_agents := m |}.

(** [SELECT ... FROM agents WHERE id = ?] followed by [fetchone()] *)
Definition select_agent (agent_id : string) (s : State) : option agents.row :=
  find (λ a, bool_decide (agents.id a = agent_id)) (tbl_agents s).

(** [SELECT id FROM agents WHERE ip_address = ?] followed by [fetchone()] *)
Definition select_agent_by_ip (ip : string) (s : State) : option agents.row :=
  find (λ a, bool_decide (agents.ip_address a = ip)) (tbl_agents s).

(** [data.get(field)] is falsy when the field is missing or empty. *)
Definition truthy (field : option string) : bool :=
  match field with
  | Some v => negb (bool_decide (v = ""))
  | None => false
  end.

(** [data.get(field, '')] *)
Definition get_or_empty (field : option string) : string := default "" field.

(** ** Operator endpoints *)

(** Body of [POST /api/agents]. *)
Record ManualAgentData := {
  m_hostname : option string;
  m_username : option string;
  m_os_info : option string;
  m_ip_address : option string;
  m_capabilities : option (list string)
}.

(** The first of the required fields that is missing, in the order of
    [required_fields]. *)
Definition missing_required_field (data : ManualAgentData) : option string :=
  if negb (truthy (m_hostname data)) then Some "hostname"
  else if negb (truthy (m_username data)) then Some "username"
  else if negb (truthy (m_os_info data)) then Some "os_info"
  else if negb (truthy (m_ip_address data)) then Some "ip_address"
  else None.

(** [add_agent_manually]: [uuid4] and [key] are the generated id and the
    base64 text of the generated key. A clash of [uuid4] with a stored id
    violates the primary key; the handler's [except] turns it into a 500. *)
Definition add_agent_manually (data : ManualAgentData) (uuid4 key : string)
    (now : Z) (s : State) : Response string * State :=
  match missing_required_field data with
  | Some field => (Error 400 ("Champ requis manquant: " ++ field), s)
  | None =>
    let ip := get_or_empty (m_ip_address data) in
    match select_agent_by_ip ip s with
    | Some _ => (Error 409 "Un agent avec cette IP existe déjà", s)
    | None =>
      match select_agent uuid4 s with
      | Some _ => (Error 500 "Erreur lors de l'ajout: UNIQUE constraint failed: agents.id", s)
      | None =>
        let a := agents.mk uuid4
                   (Some (get_or_empty (m_hostname data)))
                   (Some (get_or_empty (m_username data)))
                   (Some (get_or_empty (m_os_info data)))
                   ip now now "manual" key
                   (JArray (JString <$> default ["manual_entry"] (m_capabilities data))) in
        let s1 := set_agents (tbl_agents s ++ [a]) s in
        (OK uuid4,
         log_activity now "INFO" "AGENT" ("Agent ajouté manuellement: " ++ uuid4) s1)
      end
    end
  end.

(** [delete_agent] *)
Definition delete_agent (agent_id : string) (now : Z) (s : State)
    : Response unit * State :=
  match select_agent agent_id s with
  | None => (Error 404 "Agent non trouvé", s)
  | Some _ =>
    (* DELETE FROM commands WHERE agent_id = ? *)
    let s1 := set_commands
                (filter (λ c, commands.agent_id c ≠ agent_id) (tbl_commands s)) s in
    (* DELETE FROM agents WHERE id = ? *)
    let s2 := set_agents
                (filter (λ a, agents.id a ≠ agent_id) (tbl_agents s1)) s1 in
    (OK (), log_activity now "INFO" "AGENT" ("Agent supprimé: " ++ agent_id) s2)
  end.

(** [INSERT INTO commands (agent_id, command) VALUES (?, ?)]: the key is one
    more than the largest ever used, the status and the creation time take
    their column defaults. Returns [cursor.lastrowid] with the new state. *)
Definition insert_command (agent_id command : string) (now : Z) (s : State) : Z * State :=
  let command_id := commands_seq s + 1 in
  (command_id,
   {| tbl_agents := tbl_agents s;
      tbl_commands :=
        tbl_commands s ++
          [commands.mk command_id agent_id command "pending" now None None];
      commands_seq := command_id;
      tbl_activity_logs := tbl_activity_logs s;
      connected_agents := connected_agents s |}).

(** [send_command]: [command] is [data.get('command')]. *)
Definition send_command (agent_id : string) (command : option string)
    (now : Z) (s : State) : Response Z * State * list Emit :=
  if negb (truthy command) then (Error 400 "Commande requise", s, [])
  else
    let command := get_or_empty command in
    match select_agent agent_id s with
    | None => (Error 404 "Agent non trouvé", s, [])
    | Some _ =>
      let '(command_id, s1) := insert_command agent_id command now s in
      let emitted :=
        if bool_decide (is_Some (connected_agents s1 !! agent_id))
        then [new_command agent_id command_id command]
        else [] in
      (OK command_id,
       log_activity now "INFO" "COMMAND"
         ("Commande envoyée à " ++ agent_id ++ ": " ++ command) s1,
       emitted)
    end.

(** The statements of [send_command] one by one. The handler first reads
    the agent ([SELECT id FROM agents WHERE id = ?], outside any
    transaction), and only then inserts, commits, logs and emits. The table
    [commands] names [agents(id)] as a foreign key, but no connection turns
    [PRAGMA foreign_keys] on, so the INSERT does not look at [agents]; and
    the server is threaded, so another request can be served between the
    two. [send_command_lookup] is the part up to the SELECT,
    [send_command_insert] the part after it. *)
Definition send_command_lookup (agent_id : string) (command : option string)
    (s : State) : Response unit :=
  if negb (truthy command) then Error 400 "Commande requise"
  else
    match select_agent agent_id s with
    | None => Error 404 "Agent non trouvé"
    | Some _ => OK ()
    end.

Definition send_command_insert (agent_id : string) (command : option string)
    (now : Z) (s : State) : Response Z * State * list Emit :=
  let command := get_or_empty command in
  let '(command_id, s1) := insert_command agent_id command now s in
  let emitted :=
    if bool_decide (is_Some (connected_agents s1 !! agent_id))
    then [new_command agent_id command_id command]
    else [] in
  (OK command_id,
   log_activity now "INFO" "COMMAND"
     ("Commande envoyée à " ++ agent_id ++ ": " ++ command) s1,
   emitted).

(** ** Agent endpoints *)

(** The columns that [register_agent] fills from the body: [data.get] of
    the three labels with [''] for a missing one, each bound as a parameter,
    and [data.get('capabilities', [])], which [json.dumps] always turns into
    a text. [None] when an exception is raised on the way: [data] is no dict
    and has no [get], or sqlite3 does not accept a label as a parameter. *)
Definition register_columns (data : Json)
    : option (option string * option string * option string * Json) :=
  match data with
  | JObject fields =>
    hostname ← bind_text (default (JString "") (json_get "hostname" fields));
    username ← bind_text (default (JString "") (json_get "username" fields));
    os_info ← bind_text (default (JString "") (json_get "os_info" fields));
    Some (hostname, username, os_info,
          default (JArray []) (json_get "capabilities" fields))
  | _ => None
  end.

(** [register_agent]: [data] is [request.get_json()], [uuid4] is
    [str(uuid.uuid4())], [key] the text
    [base64.b64encode(encryption.generate_key()).decode()], [remote_addr]
    the peer address. The status of the new row is the column default,
    ['active']. Nothing catches an exception: not the ones of
    [register_columns], and not the primary-key violation of a [uuid4] that
    is already stored. Flask then answers 500 and nothing is committed. *)
Definition register_agent (data : Json) (remote_addr uuid4 key : string)
    (now : Z) (s : State) : Response (string * string) * State :=
  match register_columns data, select_agent uuid4 s with
  | Some (hostname, username, os_info, capabilities), None =>
    let a := agents.mk uuid4 hostname username os_info
               remote_addr now now "active" key capabilities in
    let s1 := set_agents (tbl_agents s ++ [a]) s in
    (OK (uuid4, key),
     log_activity now "INFO" "AGENT" ("Nouvel agent enregistré: " ++ uuid4) s1)
  | _, _ => (Error 500 "Internal Server Error", s)
  end.

(** [UPDATE agents SET last_seen = CURRENT_TIMESTAMP, status = 'active'
     WHERE id = ?] *)
Definition touch_row (agent_id : string) (now : Z) (a : agents.row) : agents.row :=
  if bool_decide (agents.id a = agent_id)
  then agents.mk (agents.id a) (agents.hostname a) (agents.username a)
         (agents.os_info a) (agents.ip_address a) (agents.first_seen a)
         now "active" (agents.encryption_key a) (agents.capabilities a)
  else a.

(** [ORDER BY created_at ASC], as a stable insertion sort of the rows taken
    in rowid order: rows created in the same second keep their rowid order. *)
Fixpoint insert_by_created_at (c : commands.row) (l : list commands.row)
    : list commands.row :=
  match l with
  | [] => [c]
  | d :: l' =>
    if bool_decide (commands.created_at c ≤ commands.created_at d)
    then c :: d :: l'
    else d :: insert_by_created_at c l'
  end.

Definition order_by_created_at (l : list commands.row) : list commands.row :=
  foldr insert_by_created_at [] l.

(** The predicate of [WHERE agent_id = ? AND status = 'pending']. *)
Definition is_pending_for (agent_id : string) (c : commands.row) : Prop :=
  commands.agent_id c = agent_id ∧ commands.status c = "pending".

Global Instance is_pending_for_dec agent_id c : Decision (is_pending_for agent_id c) :=
  and_dec (decide (commands.agent_id c = agent_id))
          (decide (commands.status c = "pending")).

(** [SELECT id, command FROM commands WHERE agent_id = ? AND status =
    'pending' ORDER BY created_at ASC] followed by [fetchall()] *)
Definition select_pending (agent_id : string) (s : State) : list commands.row :=
  order_by_created_at (filter (is_pending_for agent_id) (tbl_commands s)).

(** [agent_checkin]: the body of the answer is the list of
    [{'id': .., 'command': ..}] with the server time. *)
Definition agent_checkin (agent_id : string) (now : Z) (s : State)
    : Response (list (Z * string) * Z) * State :=
  let s1 := set_agents (touch_row agent_id now <$> tbl_agents s) s in
  let pending_commands := select_pending agent_id s1 in
  (OK ((λ cmd, (commands.id cmd, commands.command cmd)) <$> pending_commands, now),
   s1).

(** [UPDATE commands SET status = 'completed', executed_at =
    CURRENT_TIMESTAMP, result = ? WHERE id = ? AND agent_id = ?] on one row.
    A [command_id] that is [None] (missing or null) compares equal to no id. *)
Definition complete_row (agent_id : string) (command_id : option Z)
    (result : option string) (now : Z) (c : commands.row) : commands.row :=
  if bool_decide (Some (commands.id c) = command_id ∧ commands.agent_id c = agent_id)
  then commands.mk (commands.id c) (commands.agent_id c) (commands.command c)
         "completed" (commands.created_at c) (Some now) result
  else c.

(** The [command_id] of a request is a parameter that [cursor.execute]
    accepts: null, or an integer that SQLite holds. The ids stored in the
    ledger are such integers (they are taken to stay below 2^63, see
    [State]). *)
Definition binds_id (command_id : option Z) (s : State) : Prop :=
  match command_id with
  | None => True
  | Some z => sqlite_integer z ∨ z ∈ commands.id <$> tbl_commands s
  end.

Global Instance binds_id_dec command_id s : Decision (binds_id command_id s) :=
  match command_id with
  | None => left I
  | Some z => or_dec (decide (sqlite_integer z))
                     (decide (z ∈ commands.id <$> tbl_commands s))
  end.

(** [submit_result]: [command_id] and [result] are [data.get('command_id')]
    and [data.get('result')] of a body as [C2Agent.submit_result] posts it:
    the id null or an integer, the result null or a text. For a
    [command_id] that [cursor.execute] does not accept, the [OverflowError]
    is caught by nobody: Flask answers 500, nothing is committed, logged or
    emitted. *)
Definition submit_result (agent_id : string) (command_id : option Z)
    (result : option string) (now : Z) (s : State)
    : Response string * State * list Emit :=
  if decide (binds_id command_id s) then
    let s1 := set_commands
                (complete_row agent_id command_id result now <$> tbl_commands s) s in
    (OK "received",
     log_activity now "INFO" "RESULT" ("Résultat reçu de " ++ agent_id) s1,
     [command_result "admins" agent_id command_id result])
  else (Error 500 "Internal Server Error", s, []).

(** ** WebSocket events *)

(** [handle_join_agent]: [agent_id] is [data.get('agent_id')], [sid] the
    session id of the socket. *)
Definition handle_join_agent (agent_id : option string) (sid : string) (s : State)
    : State * list Emit :=
  if truthy agent_id then
    let agent_id := get_or_empty agent_id in
    (set_connected (<[agent_id := sid]> (connected_agents s)) s,
     [status_message "Agent connecté"; agent_online "admins" agent_id])
  else (s, []).

(** [handle_disconnect]: every agent whose recorded session is [sid] leaves
    [connected_agents], with one log line each (written here in the key
    order of the map). *)
Definition handle_disconnect (sid : string) (now : Z) (s : State) : State :=
  let gone := (map_to_list (filter (λ kv, kv.2 = sid) (connected_agents s))).*1 in
  let s1 := set_connected (filter (λ kv, kv.2 ≠ sid) (connected_agents s)) s in
  foldl (λ st agent_id,
           log_activity now "INFO" "AGENT" ("Agent déconnecté: " ++ agent_id) st)
        s1 gone.

(** ** Requests and runs of the controller *)

(** One request or socket event reaching the controller, with the values the
    handler draws while serving it. *)
Inductive Request : Type :=
| POST_agents (data : ManualAgentData) (uuid4 key : string) (now : Z)
| DELETE_agent (agent_id : string) (now : Z)
| POST_agent_commands (agent_id : string) (command : option string) (now : Z)
| POST_register (data : Json) (remote_addr uuid4 key : string) (now : Z)
| POST_checkin (agent_id : string) (now : Z)
| POST_result (agent_id : string) (command_id : option Z)
    (result : option string) (now : Z)
| WS_join_agent (agent_id : option string) (sid : string)
| WS_disconnect (sid : string) (now : Z).

(** The state in which the controller is left by one request. *)
Definition handle (r : Request) (s : State) : State :=
  match r with
  | POST_agents data uuid4 key now => (add_agent_manually data uuid4 key now s).2
  | DELETE_agent agent_id now => (delete_agent agent_id now s).2
  | POST_agent_commands agent_id command now =>
      (send_command agent_id command now s).1.2
  | POST_register data remote_addr uuid4 key now =>
      (register_agent data remote_addr uuid4 key now s).2
  | POST_checkin agent_id now => (agent_checkin agent_id now s).2
  | POST_result agent_id command_id result now =>
      (submit_result agent_id command_id result now s).1.2
  | WS_join_agent agent_id sid => (handle_join_agent agent_id sid s).1
  | WS_disconnect sid now => handle_disconnect sid now s
  end.

(** The requests of [rs] served one after the other, the first one first. *)
Definition run (rs : list Request) (s : State) : State :=
  foldl (λ st r, handle r st) s rs.

(** A state the controller is in after serving some requests one after the
    other, starting from [init]. *)
Definition reachable (s : State) : Prop := ∃ rs, s = run rs init.

(** [SELECT * FROM commands WHERE id = ?]: the ledger entry of a command. *)
Definition lookup_command (command_id : Z) (s : State) : option commands.row :=
  find (λ c, bool_decide (commands.id c = command_id)) (tbl_commands s).

(** The order PENDING, then SENT, then COMPLETED or FAILED on the status
    texts: [status_le x y] when a command of status [x] may later have
    status [y]. *)
Inductive status_le : string → string → Prop :=
| status_le_refl x : status_le x x
| status_le_pending_sent : status_le "pending" "sent"
| status_le_pending_completed : status_le "pending" "completed"
| status_le_pending_failed : status_le "pending" "failed"
| status_le_sent_completed : status_le "sent" "completed"
| status_le_sent_failed : status_le "sent" "failed".

(** ** The agent runtime: [C2Agent.execute_command]

    Command text is a string of 8-bit characters; [lower] and [strip] act on
    the ASCII range, as Python's [str.lower] and [str.strip] do there. What
    the agent prints on its console is not part of the model. *)

Module C2Agent.

(** An exception raised by a call into the host:
    [subprocess.TimeoutExpired], or any other subclass of [Exception];
    [str] is the text of [str(e)]. Signals that are no [Exception], such as
    [KeyboardInterrupt], are outside the model. *)
Inductive Exn : Type :=
| TimeoutExpired (str : string)
| OtherException (str : string).

Definition str (e : Exn) : string :=
  match e with TimeoutExpired m => m | OtherException m => m end.

(** A Python expression either has a value or raises. *)
Inductive Outcome (A : Type) : Type :=
| Returns (value : A)
| Raises (e : Exn).
Arguments Returns {A} value.
Arguments Raises {A} e.

(** The fields of [subprocess.CompletedProcess] that the agent reads. *)
Record CompletedProcess := {
  stdout : string;
  stderr : string;
  returncode : Z
}.

(** The answers of the host to the calls that one execution of
    [execute_command] can make, each at the moment the call is made; no path
    through it makes the same call twice. [platform_info] is the text [json.dumps(info, indent=2)] of the
    dictionary built by the [sysinfo] branch; [subprocess_run] takes the
    command line and the working directory. *)
Record Host := {
  os_chdir : string → Outcome unit;
  os_getcwd : Outcome string;
  getpass_getuser : Outcome string;
  socket_gethostname : Outcome string;
  platform_info : Outcome string;
  subprocess_run : string → string → Outcome CompletedProcess
}.

(** The calls into the host, in the order they were made. *)
Inductive HostCall : Type :=
| chdir (path : string)
| getcwd
| getuser
| gethostname
| sysinfo
| shell (command cwd : string).

(** Computations that call into the host and may raise. *)
Definition Exec (A : Type) : Type := list HostCall * Outcome A.

Global Instance Exec_ret : MRet Exec := λ A a, ([], Returns a).

Global Instance Exec_bind : MBind Exec := λ A B k m,
  match m with
  | (calls, Returns a) => let '(calls', r) := k a in ((calls ++ calls')%list, r)
  | (calls, Raises e) => (calls, Raises e)
  end.

Definition call {A} (c : HostCall) (answer : Outcome A) : Exec A := ([c], answer).

(** [try: m except ... as e: handler e] *)
Definition try_except {A} (m : Exec A) (handler : Exn → Exec A) : Exec A :=
  match m with
  | (calls, Returns a) => (calls, Returns a)
  | (calls, Raises e) => let '(calls', r) := handler e in ((calls ++ calls')%list, r)
  end.

(** [c.lower()] on one character *)
Definition lower_ascii (c : Ascii.ascii) : Ascii.ascii :=
  let n := Ascii.N_of_ascii c in
  if bool_decide (65 ≤ n ≤ 90)%N then Ascii.ascii_of_N (n + 32) else c.

(** [s.lower()] *)
Fixpoint lower (s : string) : string :=
  match s with
  | EmptyString => EmptyString
  | String c s' => String (lower_ascii c) (lower s')
  end.

(** [c.isspace()]: tab to carriage return, the four separators and space *)
Definition isspace (c : Ascii.ascii) : bool :=
  let n := Ascii.N_of_ascii c in
  bool_decide (9 ≤ n ≤ 13 ∨ 28 ≤ n ≤ 32)%N.

Fixpoint lstrip_list (l : list Ascii.ascii) : list Ascii.ascii :=
  match l with
  | c :: l' => if isspace c then lstrip_list l' else l
  | [] => []
  end.

(** [s.strip()] *)
Definition strip (s : string) : string :=
  String.string_of_list_ascii
    (rev (lstrip_list (rev (lstrip_list (String.list_ascii_of_string s))))).

(** [s[n:]] *)
Fixpoint slice_from (n : nat) (s : string) : string :=
  match n, s with
  | S n', String _ s' => slice_from n' s'
  | _, _ => s
  end.

(** [pat in s] *)
Fixpoint contains (pat s : string) : bool :=
  String.prefix pat s ||
  match s with
  | EmptyString => false
  | String _ s' => contains pat s'
  end.

Definition forbidden_commands : list string :=
  ["rm -rf"; "format"; "del /f"; "shutdown"; "reboot";
   "mkfs"; "dd if="; ":(){ :|:& };:"; "chmod 777 /"].

(** [any(forbidden in command.lower() for forbidden in forbidden_commands)] *)
Definition is_forbidden (command : string) : bool :=
  existsb (λ forbidden, contains forbidden (lower command)) forbidden_commands.

Definition forbidden_marker : string :=
  "❌ Commande interdite pour des raisons de sécurité".

Definition timeout_marker : string :=
  "❌ Timeout: Commande interrompue après 30 secondes".

(** The body of the outer [try] of [execute_command]. *)
Definition execute_command_body (h : Host) (command : string) : Exec string :=
  if String.prefix "cd " command then
    try_except
      (let path := strip (slice_from 3 command) in
       _ ← call (chdir path) (os_chdir h path);
       cwd ← call getcwd (os_getcwd h);
       mret ("Répertoire changé vers: " ++ cwd))
      (λ e, mret ("Erreur cd: " ++ str e))
  else if bool_decide (command ∈ ["pwd"; "whoami"; "hostname"]) then
    if bool_decide (command = "pwd") then call getcwd (os_getcwd h)
    else if bool_decide (command = "whoami") then call getuser (getpass_getuser h)
    else call gethostname (socket_gethostname h)
  else if bool_decide (command = "sysinfo") then
    call sysinfo (platform_info h)
  else if is_forbidden command then
    mret forbidden_marker
  else
    cwd ← call getcwd (os_getcwd h);
    result ← call (shell command cwd) (subprocess_run h command cwd);
    let output :=
      if bool_decide (stderr result = "") then stdout result
      else stdout result ++ String (Ascii.ascii_of_N 10) "STDERR: " ++ stderr result in
    mret (if bool_decide (output = "")
         then "Commande exécutée (code de retour: " ++ pretty (returncode result) ++ ")"
         else output).

(** [execute_command]: the body under its two [except] clauses. *)
Definition execute_command (h : Host) (command : string) : Exec string :=
  try_except (execute_command_body h command)
    (λ e, match e with
          | TimeoutExpired _ => mret timeout_marker
          | OtherException m => mret ("❌ Erreur d'exécution: " ++ m)
          end).

(** The loop of [checkin] over the commands of the answer: each command
    is executed and its result submitted before the next one is looked
    at. [work] pairs each command with the host as it answers during that
    execution; the value is the list of submissions [(id, result)].
    [submit_result] itself swallows every failure of the post. *)
Fixpoint execute_all (work : list (Host * (Z * string))) : Exec (list (Z * string)) :=
  match work with
  | [] => mret []
  | (h, (id, command)) :: rest =>
    result ← execute_command h command;
    submitted ← execute_all rest;
    mret ((id, result) :: submitted)
  end.

(** The command line was handed to the host shell. *)
Definition invokes_shell (calls : list HostCall) : Prop :=
  ∃ command cwd, shell command cwd ∈ calls.

End C2Agent.

(** ** Operator views: [get_agents], [get_agent_commands], [get_stats] *)

(** A stable insertion sort for the [ORDER BY] of the operator views: [le x y]
    says that [x] may come before [y]; rows that tie keep their rowid
    order. *)
Fixpoint insert_by {A} (le : A → A → Prop) `{!∀ x y, Decision (le x y)}
    (x : A) (l : list A) : list A :=
  match l with
  | [] => [x]
  | y :: l' => if decide (le x y) then x :: y :: l' else y :: insert_by le x l'
  end.

Definition sort_by {A} (le : A → A → Prop) `{!∀ x y, Decision (le x y)}
    (l : list A) : list A :=
  foldr (insert_by le) [] l.

(** The order of [ORDER BY last_seen DESC]. *)
Definition seen_ge (a b : agents.row) : Prop :=
  agents.last_seen b ≤ agents.last_seen a.

(** The order of [ORDER BY created_at DESC]. *)
Definition created_ge (c d : commands.row) : Prop :=
  commands.created_at d ≤ commands.created_at c.

Global Instance seen_ge_dec a b : Decision (seen_ge a b) :=
  decide (agents.last_seen b ≤ agents.last_seen a).

Global Instance created_ge_dec c d : Decision (created_ge c d) :=
  decide (commands.created_at d ≤ commands.created_at c).

(** One entry of the answer of [get_agents]: the columns that the query
    selects (the key is not among them) and the [online] flag. *)
Record AgentInfo := {
  i_id : string;
  i_hostname : option string;
  i_username : option string;
  i_os_info : option string;
  i_ip_address : string;
  i_first_seen : Z;
  i_last_seen : Z;
  i_status : string;
  i_capabilities : Json;
  i_online : bool
}.

Definition agent_info (s : State) (a : agents.row) : AgentInfo :=
  {| i_id := agents.id a;
     i_hostname := agents.hostname a;
     i_username := agents.username a;
     i_os_info := agents.os_info a;
     i_ip_address := agents.ip_address a;
     i_first_seen := agents.first_seen a;
     i_last_seen := agents.last_seen a;
     i_status := agents.status a;
     i_capabilities := agents.capabilities a;
     i_online := bool_decide (is_Some (connected_agents s !! agents.id a)) |}.

(** [get_agents] *)
Definition get_agents (s : State) : list AgentInfo :=
  agent_info s <$> sort_by seen_ge (tbl_agents s).

(** [get_agent_commands]: the rows of the answer; the JSON shows every
    column of a row but [agent_id]. *)
Definition get_agent_commands (agent_id : string) (s : State) : list commands.row :=
  take 100 (sort_by created_ge
              (filter (λ c, commands.agent_id c = agent_id) (tbl_commands s))).

(** The counters of [get_stats]; the [system] block read from [psutil] is
    not part of the model. *)
Record Stats := {
  total_agents : nat;
  active_agents : nat;
  online_agents : nat;
  pending_commands : nat;
  commands_today : nat
}.

(** [date(t)]: the day a timestamp falls on. *)
Definition date (t : Z) : Z := t `div` 86400.

(** [get_stats] *)
Definition get_stats (now : Z) (s : State) : Stats :=
  {| total_agents := length (tbl_agents s);
     active_agents :=
       length (filter (λ a, now - 300 < agents.last_seen a) (tbl_agents s));
     online_agents := size (connected_agents s);
     pending_commands :=
       length (filter (λ c, commands.status c = "pending") (tbl_commands s));
     commands_today :=
       length (filter (λ c, date (commands.created_at c) = date now)
                 (tbl_commands s)) |}.

(** ** The agent against the controller: [C2Agent.checkin],
    [C2Agent.submit_result] and the [new_command] handler *)

(** What becomes of one [requests.post]: the request does not arrive, or it
    arrives and the answer is lost (either way [requests] raises and the
    agent gives up on the call), or the exchange completes. *)
Inductive Link : Type :=
| request_lost
| reply_lost
| round_trip.

Definition reaches_server (l : Link) : bool :=
  match l with request_lost => false | _ => true end.

(** The surroundings of one command on the agent: the host as it answers
    while the command runs, the fate of the post of the result, and the
    controller's clock when that post arrives. *)
Record Attempt := {
  at_host : C2Agent.Host;
  at_link : Link;
  at_now : Z
}.

(** [result = self.execute_command(command)] followed by
    [self.submit_result(command_id, result)]: the body of the check-in loop
    and of the [new_command] handler, seen from the controller. *)
Definition execute_and_report (agent_id : string) (a : Attempt)
    (command_id : Z) (command : string) (s : State) : State :=
  match (C2Agent.execute_command (at_host a) command).2 with
  | C2Agent.Returns result =>
    if reaches_server (at_link a)
    then (submit_result agent_id (Some command_id) (Some result) (at_now a) s).1.2
    else s
  | C2Agent.Raises _ => s
  end.

(** The loop of [checkin] over the commands of the answer; [env k] is the
    attempt of the command at position [k]. *)
Fixpoint process_commands (agent_id : string) (env : nat → Attempt) (k : nat)
    (cmds : list (Z * string)) (s : State) : State :=
  match cmds with
  | [] => s
  | (command_id, command) :: rest =>
    process_commands agent_id env (S k) rest
      (execute_and_report agent_id (env k) command_id command s)
  end.

(** [C2Agent.checkin] against the controller: the post of the check-in over
    [link] at time [now], then the loop over the commands of the answer. *)
Definition checkin_round (agent_id : string) (link : Link) (now : Z)
    (env : nat → Attempt) (s : State) : State :=
  match link with
  | request_lost => s
  | reply_lost => (agent_checkin agent_id now s).2
  | round_trip =>
    match agent_checkin agent_id now s with
    | (OK (cmds, _), s1) => process_commands agent_id env 0 cmds s1
    | (Error _ _, s1) => s1
    end
  end.

(** ** Vocabulary of the properties *)

(** An agent row with this id is stored. *)
Definition agent_exists (agent_id : string) (s : State) : Prop :=
  agent_id ∈ agents.id <$> tbl_agents s.

(** A pending command whose agent is not stored: no stored agent's check-in
    returns it. *)
Definition orphan_pending (s : State) (c : commands.row) : Prop :=
  commands.status c = "pending" ∧ commands.agent_id c ∉ agents.id <$> tbl_agents s.

Global Instance orphan_pending_dec s c : Decision (orphan_pending s c) :=
  and_dec (decide (commands.status c = "pending"))
          (not_dec (decide (commands.agent_id c ∈ agents.id <$> tbl_agents s))).

(** The order of [ORDER BY created_at ASC]. *)
Definition created_le (c d : commands.row) : Prop :=
  commands.created_at c ≤ commands.created_at d.

(** A row of the ledger carries one of the two statuses the controller
    writes. *)
Definition pending_or_completed (c : commands.row) : Prop :=
  commands.status c = "pending" ∨ commands.status c = "completed".

(** What every run keeps true of the ledger: ids are not repeated, none
    exceeds the AUTOINCREMENT counter, and every status is one the
    controller writes. *)
Definition ledger_inv (s : State) : Prop :=
  NoDup (commands.id <$> tbl_commands s) ∧
  Forall (λ c, commands.id c ≤ commands_seq s ∧ pending_or_completed c)
         (tbl_commands s).

(** The shape of a check-in answer: the (id, command) pairs of [rows]. *)
Definition checkin_body (rows : list commands.row) : list (Z * string) :=
  (λ cmd, (commands.id cmd, commands.command cmd)) <$> rows.

(** ** Concrete runs used as test inputs *)

Definition box_data : Json :=
  JObject [("hostname", JString "box"); ("username", JString "root");
           ("os_info", JString "Linux 6.1");
           ("capabilities", JArray [JString "command_execution"])].

(** One agent, ["a1"], has registered. *)
Definition rs_registered : list Request :=
  [POST_register box_data "10.0.0.7" "a1" "a2V5" 1].

(** ... and the operator has queued ["whoami"] for it. *)
Definition rs_queued : list Request :=
  rs_registered ++ [POST_agent_commands "a1" (Some "whoami") 10].

(** ... and the agent has polled once and reported ["root"]. *)
Definition rs_reported : list Request :=
  rs_queued ++ [POST_checkin "a1" 20; POST_result "a1" (Some 1) (Some "root") 21].

(** The agent ["a1"] has registered and holds a push channel. *)
Definition rs_connected : list Request :=
  rs_registered ++ [WS_join_agent (Some "a1") "sid-1"].

(** A host on which no directory can be entered and the shell prints
    nothing. *)
Definition bare_host : C2Agent.Host :=
  {| C2Agent.os_chdir := λ path,
       C2Agent.Raises (C2Agent.OtherException
         ("[Errno 2] No such file or directory: '" ++ path ++ "'"));
     C2Agent.os_getcwd := C2Agent.Returns "/home/root";
     C2Agent.getpass_getuser := C2Agent.Returns "root";
     C2Agent.socket_gethostname := C2Agent.Returns "box";
     C2Agent.platform_info := C2Agent.Returns "{}";
     C2Agent.subprocess_run := λ _ _,
       C2Agent.Returns {| C2Agent.stdout := ""; C2Agent.stderr := "";
                          C2Agent.returncode := 0 |} |}.

(** A host whose shell never comes back within the time limit. *)
Definition slow_host : C2Agent.Host :=
  {| C2Agent.os_chdir := λ _, C2Agent.Returns ();
     C2Agent.os_getcwd := C2Agent.Returns "/home/root";
     C2Agent.getpass_getuser := C2Agent.Returns "root";
     C2Agent.socket_gethostname := C2Agent.Returns "box";
     C2Agent.platform_info := C2Agent.Returns "{}";
     C2Agent.subprocess_run := λ command _,
       C2Agent.Raises (C2Agent.TimeoutExpired
         ("Command '" ++ command ++ "' timed out after 30 seconds")) |}.


(** The same host behind a link on which the post of the result is lost. *)
Definition offline_attempt (n : nat) : Attempt :=
  {| at_host := bare_host; at_link := request_lost; at_now := 21 |}.

(** * Properties *)

(** ** The model at work *)

(** ["whoami"] queued for an agent without push channel: nothing is pushed,
    the agent's check-in receives the command, and the reported result
    completes it. *)
Example scenario_poll_and_report :
  (send_command "a1" (Some "whoami") 10 (run rs_registered init)).2 = []
  ∧ (agent_checkin "a1" 20 (run rs_queued init)).1 = OK ([(1, "whoami")], 20)
  ∧ lookup_command 1 (run rs_reported init)
    = Some (commands.mk 1 "a1" "whoami" "completed" 10 (Some 21) (Some "root")).
Proof. vm_compute. repeat split. Qed.

(** Deleting the agent takes its command along, and the next command of a
    newly registered agent does not reuse the id. *)
Example scenario_delete_then_enqueue :
  let s := run (rs_reported ++
                [DELETE_agent "a1" 30;
                 POST_register box_data "10.0.0.8" "a2" "a2V5Mg==" 31]) init in
  tbl_commands s = []
  ∧ (send_command "a2" (Some "pwd") 32 s).1.1 = OK 2.
Proof. vm_compute. repeat split. Qed.

(** Commands queued while the clock steps back are handed out by creation
    time, not by id. *)
Example scenario_creation_order :
  let s := run (rs_registered ++
                [POST_agent_commands "a1" (Some "first") 12;
                 POST_agent_commands "a1" (Some "second") 11;
                 POST_agent_commands "a1" (Some "third") 12]) init in
  (agent_checkin "a1" 20 s).1 = OK ([(2, "second"); (1, "first"); (3, "third")], 20).
Proof. vm_compute. reflexivity. Qed.

(** The labels of a registration as the table keeps them: a null label is
    NULL, a missing one the empty text, a boolean or a number its text; a
    number too large for SQLite, a list as label and a body that is no
    object are not stored at all. *)
Example scenario_register_labels :
  register_columns
    (JObject [("hostname", JNull); ("username", JBool true); ("os_info", JInt 11)])
  = Some (None, Some "1", Some "11", JArray [])
  ∧ register_columns (JObject []) = Some (Some "", Some "", Some "", JArray [])
  ∧ register_columns (JObject [("hostname", JInt (2 ^ 63))]) = None
  ∧ register_columns (JObject [("os_info", JArray [])]) = None
  ∧ register_columns JNull = None
  ∧ register_columns (JString "box") = None.
Proof. vm_compute. repeat split. Qed.

(** ** Tables after each handler *)

Lemma log_activity_commands now level source message s :
  tbl_commands (log_activity now level source message s) = tbl_commands s.
Proof. reflexivity. Qed.

Lemma foldl_log_preserves {B} (P : State → Prop) (msg : B → string) now level source
    (l : list B) s :
  (∀ m st, P st → P (log_activity now level source m st)) →
  P s →
  P (foldl (λ st x, log_activity now level source (msg x) st) s l).
Proof.
  intros Hlog. revert s. induction l as [|x l IH]; intros s Hs; [done|].
  cbn. apply IH. by apply Hlog.
Qed.

Lemma handle_disconnect_commands sid now s :
  tbl_commands (handle_disconnect sid now s) = tbl_commands s.
Proof.
  unfold handle_disconnect.
  apply (foldl_log_preserves (λ st, tbl_commands st = tbl_commands s)); done.
Qed.

Lemma handle_disconnect_seq sid now s :
  commands_seq (handle_disconnect sid now s) = commands_seq s.
Proof.
  unfold handle_disconnect.
  apply (foldl_log_preserves (λ st, commands_seq st = commands_seq s)); done.
Qed.

Lemma complete_row_id agent_id command_id result now c :
  commands.id (complete_row agent_id command_id result now c) = commands.id c.
Proof. unfold complete_row. by case_bool_decide. Qed.

Lemma complete_row_agent_id agent_id command_id result now c :
  commands.agent_id (complete_row agent_id command_id result now c)
  = commands.agent_id c.
Proof. unfold complete_row. by case_bool_decide. Qed.

Lemma complete_row_status agent_id command_id result now c :
  commands.status (complete_row agent_id command_id result now c) = commands.status c
  ∨ commands.status (complete_row agent_id command_id result now c) = "completed".
Proof. unfold complete_row. case_bool_decide; auto. Qed.

Lemma tbl_commands_set_agents l s : tbl_commands (set_agents l s) = tbl_commands s.
Proof. reflexivity. Qed.

(** The two ways a registration ends. *)
Lemma register_agent_cases data remote_addr uuid4 key now s :
  (∃ hostname username os_info capabilities,
      register_columns data = Some (hostname, username, os_info, capabilities)
      ∧ select_agent uuid4 s = None
      ∧ register_agent data remote_addr uuid4 key now s
        = (OK (uuid4, key),
           log_activity now "INFO" "AGENT" ("Nouvel agent enregistré: " ++ uuid4)
             (set_agents
                (tbl_agents s ++
                 [agents.mk uuid4 hostname username os_info remote_addr now now
                    "active" key capabilities]) s)))
  ∨ ((register_columns data = None ∨ is_Some (select_agent uuid4 s))
     ∧ register_agent data remote_addr uuid4 key now s
       = (Error 500 "Internal Server Error", s)).
Proof.
  unfold register_agent.
  destruct (register_columns data) as [[[[h u] o] caps]|]; [|right; by auto].
  destruct (select_agent uuid4 s) as [a|] eqn:Hsel; [right; by eauto|].
  left. by exists h, u, o, caps.
Qed.

(** The two ways the submission of a result ends. *)
Lemma submit_result_cases agent_id command_id result now s :
  (binds_id command_id s
   ∧ submit_result agent_id command_id result now s
     = (OK "received",
        log_activity now "INFO" "RESULT" ("Résultat reçu de " ++ agent_id)
          (set_commands
             (complete_row agent_id command_id result now <$> tbl_commands s) s),
        [command_result "admins" agent_id command_id result]))
  ∨ (¬ binds_id command_id s
     ∧ submit_result agent_id command_id result now s
       = (Error 500 "Internal Server Error", s, [])).
Proof.
  unfold submit_result. destruct (decide (binds_id command_id s)); [left|right]; done.
Qed.

(** A [command_id] that is refused designates no row. *)
Lemma complete_row_unbound agent_id command_id result now s :
  ¬ binds_id command_id s →
  complete_row agent_id command_id result now <$> tbl_commands s = tbl_commands s.
Proof.
  intros Hno. destruct command_id as [z|]; [|by destruct Hno].
  assert (z ∉ commands.id <$> tbl_commands s) as Hz by (cbn in Hno; tauto).
  induction (tbl_commands s) as [|c l IH]; [done|].
  cbn [fmap list_fmap] in *. apply not_elem_of_cons in Hz as [Hc Hz].
  f_equal; [|by apply IH].
  unfold complete_row. rewrite bool_decide_eq_false_2; [done|].
  intros [[= Heq] _]. congruence.
Qed.

Lemma submit_result_commands agent_id command_id result now s :
  tbl_commands (submit_result agent_id command_id result now s).1.2
  = complete_row agent_id command_id result now <$> tbl_commands s.
Proof.
  destruct (submit_result_cases agent_id command_id result now s)
    as [[_ ->]|[Hno ->]]; [done|].
  cbn. by rewrite complete_row_unbound.
Qed.

Lemma submit_result_frame agent_id command_id result now s :
  tbl_agents (submit_result agent_id command_id result now s).1.2 = tbl_agents s
  ∧ commands_seq (submit_result agent_id command_id result now s).1.2 = commands_seq s
  ∧ connected_agents (submit_result agent_id command_id result now s).1.2
    = connected_agents s.
Proof.
  by destruct (submit_result_cases agent_id command_id result now s)
    as [[_ ->]|[_ ->]].
Qed.

(** The ledger after one request: the same rows, or the same rows with
    some of them completed, or some rows deleted, or one pending row more. *)
Lemma handle_commands_shape r s :
  tbl_commands (handle r s) = tbl_commands s ∧ commands_seq (handle r s) = commands_seq s
  ∨ (∃ agent_id command_id result now,
        tbl_commands (handle r s)
        = complete_row agent_id command_id result now <$> tbl_commands s
        ∧ commands_seq (handle r s) = commands_seq s)
  ∨ (∃ agent_id,
        tbl_commands (handle r s)
        = filter (λ c, commands.agent_id c ≠ agent_id) (tbl_commands s)
        ∧ commands_seq (handle r s) = commands_seq s)
  ∨ (∃ agent_id command now,
        tbl_commands (handle r s)
        = (tbl_commands s ++
           [commands.mk (commands_seq s + 1) agent_id command "pending" now None None])%list
        ∧ commands_seq (handle r s) = commands_seq s + 1).
Proof.
  destruct r as [data uuid4 key now|agent_id now|agent_id command now
                |data addr uuid4 key now|agent_id now|agent_id cid res now
                |agent_id sid|sid now]; cbn [handle].
  - left. unfold add_agent_manually.
    destruct (missing_required_field data); [done|].
    destruct (select_agent_by_ip _ s); [done|].
    destruct (select_agent uuid4 s); done.
  - unfold delete_agent. destruct (select_agent agent_id s); [|by left].
    right; right; left. by exists agent_id.
  - unfold send_command. destruct (negb (truthy command)); [by left|].
    destruct (select_agent agent_id s); [|by left].
    right; right; right. by exists agent_id, (get_or_empty command), now.
  - left.
    by destruct (register_agent_cases data addr uuid4 key now s)
      as [(h & u & o & caps & _ & _ & ->)|[_ ->]].
  - by left.
  - destruct (submit_result_cases agent_id cid res now s) as [[_ ->]|[_ ->]];
      [|by left].
    right; left. by exists agent_id, cid, res, now.
  - left. unfold handle_join_agent. destruct (truthy agent_id); done.
  - left. split; [apply handle_disconnect_commands|apply handle_disconnect_seq].
Qed.

(** ** The invariant of the ledger *)

Lemma run_snoc rs r s : run (rs ++ [r]) s = handle r (run rs s).
Proof. unfold run. by rewrite foldl_snoc. Qed.

Lemma run_app rs rs' s : run (rs ++ rs') s = run rs' (run rs s).
Proof. unfold run. by rewrite foldl_app. Qed.

Lemma ledger_inv_init : ledger_inv init.
Proof. split; cbn; constructor. Qed.

Lemma complete_row_pending_or_completed agent_id command_id result now c :
  pending_or_completed c →
  pending_or_completed (complete_row agent_id command_id result now c).
Proof.
  unfold pending_or_completed.
  destruct (complete_row_status agent_id command_id result now c) as [->| ->]; auto.
Qed.

Lemma handle_ledger_inv r s : ledger_inv s → ledger_inv (handle r s).
Proof.
  intros [Hnodup Hall]. unfold ledger_inv.
  destruct (handle_commands_shape r s)
    as [[-> ->]|[(a & cid & res & now & -> & ->)|[(a & -> & ->)|(a & t & now & -> & ->)]]].
  - done.
  - split.
    + rewrite <- list_fmap_compose.
      erewrite list_fmap_ext; [exact Hnodup|].
      intros ? c _. cbn. apply complete_row_id.
    + apply Forall_fmap. eapply Forall_impl; [exact Hall|].
      intros c [Hle Hst]. cbn. rewrite complete_row_id.
      split; [done|]. by apply complete_row_pending_or_completed.
  - split.
    + eapply sublist_NoDup; [exact Hnodup|].
      apply fmap_sublist, sublist_filter.
    + rewrite Forall_forall in Hall. apply Forall_forall.
      intros c [_ Hc]%list_elem_of_filter. by apply Hall.
  - split.
    + rewrite fmap_app. apply NoDup_app. split; [done|]. split.
      * intros i (c & -> & Hc)%list_elem_of_fmap. cbn.
        rewrite Forall_forall in Hall. destruct (Hall c Hc) as [Hle _].
        intros Heq%list_elem_of_singleton. lia.
      * cbn. apply NoDup_singleton.
    + apply Forall_app. split.
      * eapply Forall_impl; [exact Hall|]. intros c [Hle Hst]. split; [lia|done].
      * apply Forall_singleton. cbn. split; [lia|]. by left.
Qed.

Lemma run_ledger_inv rs s : ledger_inv s → ledger_inv (run rs s).
Proof.
  induction rs as [|r rs IH] using rev_ind; [done|].
  intros Hs. rewrite run_snoc. by apply handle_ledger_inv, IH.
Qed.

Lemma reachable_ledger_inv s : reachable s → ledger_inv s.
Proof. intros [rs ->]. apply run_ledger_inv, ledger_inv_init. Qed.

Lemma handle_seq_mono r s : commands_seq s ≤ commands_seq (handle r s).
Proof.
  destruct (handle_commands_shape r s)
    as [[_ ->]|[(a & cid & res & now & _ & ->)|[(a & _ & ->)|(a & t & now & _ & ->)]]];
    lia.
Qed.

Lemma run_seq_mono rs s : commands_seq s ≤ commands_seq (run rs s).
Proof.
  induction rs as [|r rs IH] using rev_ind; [done|].
  rewrite run_snoc. pose proof (handle_seq_mono r (run rs s)). lia.
Qed.

(** ** Looking a command up by its id *)

Lemma lookup_command_elem i s c :
  lookup_command i s = Some c → c ∈ tbl_commands s ∧ commands.id c = i.
Proof.
  unfold lookup_command. intros [Hin Hid]%find_some.
  split; [by apply list_elem_of_In|]. by apply bool_decide_eq_true in Hid.
Qed.

Lemma find_by_id (l : list commands.row) i c :
  NoDup (commands.id <$> l) → c ∈ l → commands.id c = i →
  find (λ c, bool_decide (commands.id c = i)) l = Some c.
Proof.
  induction l as [|d l IH]; intros Hnodup Hc Hid; [by apply elem_of_nil in Hc|].
  cbn in Hnodup. apply NoDup_cons in Hnodup as [Hd Hnodup].
  cbn. case_bool_decide as Hdi.
  - apply elem_of_cons in Hc as [->|Hc]; [done|].
    exfalso. apply Hd. rewrite Hdi, <- Hid. by apply list_elem_of_fmap_2.
  - apply elem_of_cons in Hc as [->|Hc]; [done|]. by apply IH.
Qed.

Lemma lookup_command_Some i s c :
  NoDup (commands.id <$> tbl_commands s) →
  lookup_command i s = Some c ↔ c ∈ tbl_commands s ∧ commands.id c = i.
Proof.
  intros Hnodup. split; [apply lookup_command_elem|].
  intros [Hc Hid]. by apply find_by_id.
Qed.

Lemma lookup_command_None i s :
  lookup_command i s = None ↔ i ∉ commands.id <$> tbl_commands s.
Proof.
  unfold lookup_command. split.
  - intros Hnone (c & -> & Hc)%list_elem_of_fmap.
    apply list_elem_of_In in Hc. apply (find_none _ _ Hnone) in Hc.
    by apply bool_decide_eq_false in Hc.
  - intros Hnot. destruct (find _ _) as [c|] eqn:Hfind; [|done].
    apply find_some in Hfind as [Hin Hid]. apply bool_decide_eq_true in Hid.
    exfalso. apply Hnot. rewrite <- Hid.
    by apply list_elem_of_fmap_2, list_elem_of_In.
Qed.

(** [find] through an update that keeps the ids. *)
Lemma find_fmap_id (f : commands.row → commands.row) (l : list commands.row) i :
  (∀ c, commands.id (f c) = commands.id c) →
  find (λ c, bool_decide (commands.id c = i)) (f <$> l)
  = f <$> find (λ c, bool_decide (commands.id c = i)) l.
Proof.
  intros Hf. induction l as [|d l IH]; [done|].
  cbn. rewrite Hf. by case_bool_decide.
Qed.

(** ** The order on statuses *)

Lemma status_le_trans x y z : status_le x y → status_le y z → status_le x z.
Proof.
  intros Hxy Hyz. destruct Hxy; [done|..]; inversion Hyz; subst;
    try discriminate; constructor.
Qed.

Lemma status_le_antisym x y : status_le x y → status_le y x → x = y.
Proof. intros Hxy Hyx. destruct Hxy; [done|..]; inversion Hyx. Qed.

Lemma pending_or_completed_le_completed c :
  pending_or_completed c → status_le (commands.status c) "completed".
Proof. intros [-> | ->]; constructor. Qed.

(** ** One request against one ledger entry *)

Lemma same_id_same_row s c d :
  NoDup (commands.id <$> tbl_commands s) →
  c ∈ tbl_commands s → d ∈ tbl_commands s → commands.id c = commands.id d → c = d.
Proof.
  intros Hnodup Hc Hd Hid.
  assert (lookup_command (commands.id d) s = Some c) as H1
    by by apply lookup_command_Some.
  assert (lookup_command (commands.id d) s = Some d) as H2
    by by apply lookup_command_Some.
  congruence.
Qed.

(** An entry that is still there has moved forward or not at all, and
    belongs to the same agent. *)
Lemma handle_monotone r s i c c' :
  ledger_inv s →
  lookup_command i s = Some c →
  lookup_command i (handle r s) = Some c' →
  status_le (commands.status c) (commands.status c')
  ∧ commands.agent_id c' = commands.agent_id c.
Proof.
  intros [Hnodup Hall] [Hc Hci]%lookup_command_elem [Hc' Hci']%lookup_command_elem.
  rewrite Forall_forall in Hall.
  assert (∀ d, d ∈ tbl_commands s → commands.id d = i → d = c) as Huniq.
  { intros d Hd Hdi. apply (same_id_same_row s); congruence. }
  destruct (handle_commands_shape r s)
    as [[Heq _]|[(a & cid & res & now & Heq & _)|[(a & Heq & _)|(a & t & now & Heq & _)]]];
    rewrite Heq in Hc'.
  - rewrite (Huniq c' Hc' Hci'). split; [constructor|done].
  - apply list_elem_of_fmap in Hc' as (d & -> & Hd).
    rewrite complete_row_id in Hci'. rewrite (Huniq d Hd Hci').
    split; [|apply complete_row_agent_id].
    destruct (complete_row_status a cid res now c) as [-> | ->]; [constructor|].
    apply pending_or_completed_le_completed, Hall, Hc.
  - apply list_elem_of_filter in Hc' as [_ Hc'].
    rewrite (Huniq c' Hc' Hci'). split; [constructor|done].
  - apply elem_of_app in Hc' as [Hc'|Hnew].
    + rewrite (Huniq c' Hc' Hci'). split; [constructor|done].
    + apply list_elem_of_singleton in Hnew. subst c'. cbn in Hci'.
      destruct (Hall c Hc) as [Hle _]. lia.
Qed.

(** An entry that was not there enters as pending, under the next id. *)
Lemma handle_fresh r s i c' :
  lookup_command i s = None →
  lookup_command i (handle r s) = Some c' →
  commands.status c' = "pending" ∧ i = commands_seq s + 1.
Proof.
  intros Hnone%lookup_command_None [Hc' Hci']%lookup_command_elem.
  assert (∀ d, d ∈ tbl_commands s → commands.id d = i → False) as Habsent.
  { intros d Hd Hdi. apply Hnone. rewrite <- Hdi. by apply list_elem_of_fmap_2. }
  destruct (handle_commands_shape r s)
    as [[Heq _]|[(a & cid & res & now & Heq & _)|[(a & Heq & _)|(a & t & now & Heq & _)]]];
    rewrite Heq in Hc'.
  - by destruct (Habsent c').
  - apply list_elem_of_fmap in Hc' as (d & -> & Hd).
    rewrite complete_row_id in Hci'. by destruct (Habsent d).
  - apply list_elem_of_filter in Hc' as [_ Hc']. by destruct (Habsent c').
  - apply elem_of_app in Hc' as [Hc'|Hnew]; [by destruct (Habsent c')|].
    apply list_elem_of_singleton in Hnew. by subst c'.
Qed.

(** An id that has been handed out and is gone does not come back. *)
Lemma run_stays_gone rs s i :
  i ≤ commands_seq s → lookup_command i s = None → lookup_command i (run rs s) = None.
Proof.
  intros Hle Hnone. induction rs as [|r rs IH] using rev_ind; [done|].
  rewrite run_snoc.
  destruct (lookup_command i (handle r (run rs s))) as [c'|] eqn:Hlook; [|done].
  destruct (handle_fresh _ _ _ _ IH Hlook) as [_ ->].
  pose proof (run_seq_mono rs s). lia.
Qed.

Lemma run_monotone rs s i c c' :
  ledger_inv s →
  lookup_command i s = Some c →
  lookup_command i (run rs s) = Some c' →
  status_le (commands.status c) (commands.status c')
  ∧ commands.agent_id c' = commands.agent_id c.
Proof.
  intros Hinv Hc. revert c'.
  induction rs as [|r rs IH] using rev_ind; intros c' Hc'.
  - cbn in Hc'. assert (c' = c) as -> by congruence. split; [constructor|done].
  - rewrite run_snoc in Hc'.
    destruct (lookup_command i (run rs s)) as [d|] eqn:Hd.
    + destruct (IH d eq_refl) as [Hle Hagent].
      destruct (handle_monotone r (run rs s) i d c') as [Hle' Hagent'];
        [by apply run_ledger_inv|done|done|].
      split; [by eapply status_le_trans|congruence].
    + destruct (handle_fresh _ _ _ _ Hd Hc') as [_ ->].
      apply lookup_command_elem in Hc as [Hc Hid].
      destruct Hinv as [_ Hall]. rewrite Forall_forall in Hall.
      destruct (Hall c Hc) as [Hle _].
      pose proof (run_seq_mono rs s). lia.
Qed.

(** C4. In every state the controller can reach, whatever requests follow,
    the status of a command only moves forward in the order PENDING, SENT,
    COMPLETED or FAILED and its owning agent id stays the same; and a
    command that a request adds to the ledger starts as PENDING. *)
Theorem command_status_monotone (s : State) (rs : list Request) :
  reachable s →
  (∀ i c c',
     lookup_command i s = Some c →
     lookup_command i (run rs s) = Some c' →
     status_le (commands.status c) (commands.status c')
     ∧ commands.agent_id c' = commands.agent_id c)
  ∧ (∀ r i c',
       lookup_command i s = None →
       lookup_command i (handle r s) = Some c' →
       commands.status c' = "pending").
Proof.
  intros Hs%reachable_ledger_inv. split.
  - intros i c c'. by apply run_monotone.
  - intros r i c' Hnone Hc'. by destruct (handle_fresh _ _ _ _ Hnone Hc').
Qed.

Lemma command_status_monotone_witness :
  reachable (run rs_queued init)
  ∧ status_le "pending" "completed"
  ∧ commands.status
      (commands.mk 1 "a1" "whoami" "pending" 10 None None) = "pending".
Proof.
  assert (reachable (run rs_queued init)) as Hreach by (by exists rs_queued).
  split; [exact Hreach|].
  destruct (command_status_monotone (run rs_queued init)
              [POST_checkin "a1" 20; POST_result "a1" (Some 1) (Some "root") 21]
              Hreach) as [Hmono _].
  destruct (command_status_monotone (run rs_registered init) [] 
              (ex_intro _ rs_registered eq_refl)) as [_ Hnew].
  split.
  - exact (proj1 (Hmono 1 (commands.mk 1 "a1" "whoami" "pending" 10 None None)
             (commands.mk 1 "a1" "whoami" "completed" 10 (Some 21) (Some "root"))
             eq_refl eq_refl)).
  - exact (Hnew (POST_agent_commands "a1" (Some "whoami") 10) 1
             (commands.mk 1 "a1" "whoami" "pending" 10 None None) eq_refl eq_refl).
Defined.

(** C10. In every state the controller can reach, every stored command has
    status ['pending'] or ['completed']; none has ['sent'] or ['failed']. *)
Theorem stored_status_pending_or_completed (s : State) :
  reachable s →
  Forall (λ c, (commands.status c = "pending" ∨ commands.status c = "completed")
               ∧ commands.status c ≠ "sent" ∧ commands.status c ≠ "failed")
         (tbl_commands s).
Proof.
  intros [_ Hall]%reachable_ledger_inv.
  eapply Forall_impl; [exact Hall|].
  intros c [_ Hst]. split; [exact Hst|]. by destruct Hst as [-> | ->].
Qed.

Lemma stored_status_pending_or_completed_witness :
  reachable (run rs_reported init)
  ∧ Forall (λ c, (commands.status c = "pending" ∨ commands.status c = "completed")
                 ∧ commands.status c ≠ "sent" ∧ commands.status c ≠ "failed")
           [commands.mk 1 "a1" "whoami" "completed" 10 (Some 21) (Some "root")].
Proof.
  assert (reachable (run rs_reported init)) as Hreach by (by exists rs_reported).
  split; [exact Hreach|].
  exact (stored_status_pending_or_completed (run rs_reported init) Hreach).
Defined.

(** ** Check-in: the pending commands in creation order *)

Lemma insert_by_created_at_perm c l : insert_by_created_at c l ≡ₚ c :: l.
Proof.
  induction l as [|d l IH]; [done|].
  cbn. case_bool_decide; [done|].
  rewrite IH. apply Permutation_swap.
Qed.

Lemma order_by_created_at_perm l : order_by_created_at l ≡ₚ l.
Proof.
  induction l as [|c l IH]; [done|].
  cbn. rewrite insert_by_created_at_perm. by constructor.
Qed.

Lemma insert_by_created_at_sorted c l :
  StronglySorted created_le l → StronglySorted created_le (insert_by_created_at c l).
Proof.
  induction 1 as [|d l Hsorted IH Hd]; cbn.
  - by repeat constructor.
  - case_bool_decide as Hcd.
    + constructor; [by constructor|].
      constructor; [done|].
      eapply Forall_impl; [exact Hd|]. unfold created_le. intros e He. lia.
    + constructor; [exact IH|].
      rewrite insert_by_created_at_perm.
      constructor; [unfold created_le; lia|done].
Qed.

Lemma order_by_created_at_sorted l : StronglySorted created_le (order_by_created_at l).
Proof.
  induction l as [|c l IH]; [constructor|].
  cbn. by apply insert_by_created_at_sorted.
Qed.

(** Rows that were inserted while the clock went forward are already in the
    order of the query. *)
Lemma order_by_created_at_sorted_id l :
  StronglySorted created_le l → order_by_created_at l = l.
Proof.
  induction 1 as [|c l Hsorted IH Hc]; [done|].
  cbn. fold (order_by_created_at l). rewrite IH.
  destruct l as [|d l]; [done|].
  cbn. apply Forall_cons in Hc as [Hcd _]. by rewrite bool_decide_eq_true_2.
Qed.

(** C1, as amended. A check-in returns exactly the commands of the agent
    whose status is pending, ordered by creation time, and leaves every
    command as it was: the commands stay pending, so a second check-in
    returns the same sequence again. *)
Theorem agent_checkin_returns_pending (agent_id : string) (now : Z) (s : State) :
  ∃ rows,
    (agent_checkin agent_id now s).1 = OK (checkin_body rows, now)
    ∧ rows ≡ₚ filter (is_pending_for agent_id) (tbl_commands s)
    ∧ StronglySorted created_le rows
    ∧ tbl_commands (agent_checkin agent_id now s).2 = tbl_commands s
    ∧ ∀ now', (agent_checkin agent_id now' (agent_checkin agent_id now s).2).1
              = OK (checkin_body rows, now').
Proof.
  exists (select_pending agent_id s). repeat split.
  - apply order_by_created_at_perm.
  - apply order_by_created_at_sorted.
Qed.

(** C1 as stated fails on the run in which ["whoami"] is queued for ["a1"]:
    the first check-in returns the command and leaves it pending, and the
    second check-in is not empty. *)
Lemma claim_pending_counterexample :
  let s := run rs_queued init in
  let s1 := (agent_checkin "a1" 20 s).2 in
  (agent_checkin "a1" 20 s).1 = OK ([(1, "whoami")], 20)
  ∧ commands.status <$> lookup_command 1 s1 = Some "pending"
  ∧ commands.status <$> lookup_command 1 s1 ≠ Some "sent"
  ∧ (agent_checkin "a1" 30 s1).1 ≠ OK ([], 30).
Proof. vm_compute. repeat split; discriminate. Qed.

(** ** Result ingestion *)

Lemma submit_result_lookup agent_id command_id result now s i :
  lookup_command i (submit_result agent_id command_id result now s).1.2
  = complete_row agent_id command_id result now <$> lookup_command i s.
Proof.
  unfold lookup_command. rewrite submit_result_commands.
  apply find_fmap_id. intros c. apply complete_row_id.
Qed.




(** ** Enqueueing and the push path *)

Lemma select_agent_None agent_id s :
  select_agent agent_id s = None ↔ ¬ agent_exists agent_id s.
Proof.
  unfold select_agent, agent_exists. split.
  - intros Hnone (a & -> & Ha)%list_elem_of_fmap.
    apply list_elem_of_In in Ha. apply (find_none _ _ Hnone) in Ha.
    by apply bool_decide_eq_false in Ha.
  - intros Hnot. destruct (find _ _) as [a|] eqn:Hfind; [|done].
    apply find_some in Hfind as [Hin Hid]. apply bool_decide_eq_true in Hid.
    exfalso. apply Hnot. rewrite <- Hid.
    by apply list_elem_of_fmap_2, list_elem_of_In.
Qed.

Lemma select_agent_is_Some agent_id s :
  is_Some (select_agent agent_id s) ↔ agent_exists agent_id s.
Proof.
  split.
  - intros [a Ha]. apply find_some in Ha as [Hin Hid].
    apply bool_decide_eq_true in Hid. rewrite <- Hid.
    by apply list_elem_of_fmap_2, list_elem_of_In.
  - intros Hex. apply not_eq_None_Some. by intros Hnone%select_agent_None.
Qed.

Lemma truthy_Some command : command ≠ "" → truthy (Some command) = true.
Proof. intros Hne. cbn. by rewrite bool_decide_eq_false_2. Qed.

(** What [send_command] does with a command text that is not empty, for an
    agent that is stored. *)
Lemma send_command_stored agent_id command now s :
  command ≠ "" → agent_exists agent_id s →
  send_command agent_id (Some command) now s
  = (OK (commands_seq s + 1),
     log_activity now "INFO" "COMMAND"
       ("Commande envoyée à " ++ agent_id ++ ": " ++ command)
       (insert_command agent_id command now s).2,
     if bool_decide (is_Some (connected_agents s !! agent_id))
     then [new_command agent_id (commands_seq s + 1) command] else []).
Proof.
  intros Hne [a Ha]%select_agent_is_Some.
  unfold send_command. rewrite (truthy_Some _ Hne). cbn [negb].
  by rewrite Ha.
Qed.

Lemma elem_of_select_pending agent_id s c :
  c ∈ select_pending agent_id s
  ↔ c ∈ tbl_commands s ∧ commands.agent_id c = agent_id
    ∧ commands.status c = "pending".
Proof.
  unfold select_pending. rewrite order_by_created_at_perm, list_elem_of_filter.
  unfold is_pending_for. tauto.
Qed.

(** C3, as amended. When [send_command] pushes a command over a live
    channel, the command enters the ledger as pending and stays pending:
    the push does not go through any ledger transition. The agent's next
    check-in therefore returns the pushed command again; only once the
    agent has submitted a result for it do check-ins stop returning it. *)
Theorem push_leaves_command_pending (agent_id command : string) (now : Z) (s : State) :
  command ≠ "" →
  agent_exists agent_id s →
  is_Some (connected_agents s !! agent_id) →
  let command_id := commands_seq s + 1 in
  let s1 := (send_command agent_id (Some command) now s).1.2 in
  (send_command agent_id (Some command) now s).1.1 = OK command_id
  ∧ (send_command agent_id (Some command) now s).2
    = [new_command agent_id command_id command]
  ∧ tbl_commands s1
    = (tbl_commands s ++
       [commands.mk command_id agent_id command "pending" now None None])%list
  ∧ (∀ now', ∃ l,
       (agent_checkin agent_id now' s1).1 = OK (l, now')
       ∧ (command_id, command) ∈ l)
  ∧ (∀ result now' now'', ∃ l,
       (agent_checkin agent_id now''
          (submit_result agent_id (Some command_id) result now' s1).1.2).1
       = OK (l, now'')
       ∧ command_id ∉ l.*1).
Proof.
  intros Hne Hagent Hconn. cbn zeta.
  rewrite (send_command_stored _ _ _ _ Hne Hagent).
  rewrite (bool_decide_eq_true_2 _ Hconn). cbn [fst snd].
  split; [done|]. split; [done|]. split; [done|]. split.
  - intros now'. eexists. split; [reflexivity|].
    apply (list_elem_of_fmap_2' (λ cmd, (commands.id cmd, commands.command cmd)) _
             (commands.mk (commands_seq s + 1) agent_id command "pending" now None None));
      [|done].
    apply elem_of_select_pending. cbn. split; [|done].
    apply elem_of_app. right. by apply list_elem_of_singleton.
  - intros result now' now''. eexists. split; [reflexivity|].
    rewrite <- list_fmap_compose.
    intros (c & Hid & Hc)%list_elem_of_fmap. cbn in Hid.
    apply elem_of_select_pending in Hc as (Hc & Ha & Hst).
    rewrite tbl_commands_set_agents, submit_result_commands in Hc.
    apply list_elem_of_fmap in Hc as (d & -> & Hd).
    rewrite complete_row_id in Hid. rewrite complete_row_agent_id in Ha.
    unfold complete_row in Hst.
    rewrite bool_decide_eq_true_2 in Hst; [done|]. by rewrite <- Hid.
Qed.

Lemma push_leaves_command_pending_witness :
  "pwd" ≠ ""
  ∧ agent_exists "a1" (run rs_connected init)
  ∧ is_Some (connected_agents (run rs_connected init) !! "a1")
  ∧ (send_command "a1" (Some "pwd") 10 (run rs_connected init)).2
    = [new_command "a1" (commands_seq (run rs_connected init) + 1) "pwd"].
Proof.
  assert ("pwd" ≠ "") as Hne by discriminate.
  assert (agent_exists "a1" (run rs_connected init)) as Hagent
    by (apply select_agent_is_Some; vm_compute; eauto).
  assert (is_Some (connected_agents (run rs_connected init) !! "a1")) as Hconn
    by (vm_compute; eauto).
  split; [exact Hne|]. split; [exact Hagent|]. split; [exact Hconn|].
  exact (proj1 (proj2
    (push_leaves_command_pending "a1" "pwd" 10 (run rs_connected init)
       Hne Hagent Hconn))).
Defined.

(** C3 as stated fails on the run in which ["a1"] holds a push channel:
    ["pwd"] is pushed to the agent as command 1, stays pending, and the
    agent's next check-in hands command 1 to it a second time. *)
Lemma push_and_poll_counterexample :
  let s := run rs_connected init in
  let s1 := (send_command "a1" (Some "pwd") 10 s).1.2 in
  (send_command "a1" (Some "pwd") 10 s).2 = [new_command "a1" 1 "pwd"]
  ∧ commands.status <$> lookup_command 1 s1 = Some "pending"
  ∧ commands.status <$> lookup_command 1 s1 ≠ Some "sent"
  ∧ (agent_checkin "a1" 20 s1).1 = OK ([(1, "pwd")], 20).
Proof. vm_compute. repeat split; discriminate. Qed.




(** ** Deleting an agent *)

(** C8. [delete_agent] fails with 404 (not found) when no agent with the
    id is stored, leaving the state as it was; otherwise it succeeds and
    removes the agent row and exactly the commands owned by that agent, so
    that neither the agent nor any of its commands remains. *)
Theorem delete_agent_cascades (agent_id : string) (now : Z) (s : State) :
  (¬ agent_exists agent_id s →
     delete_agent agent_id now s = (Error 404 "Agent non trouvé", s))
  ∧ (agent_exists agent_id s →
       let s' := (delete_agent agent_id now s).2 in
       (delete_agent agent_id now s).1 = OK ()
       ∧ ¬ agent_exists agent_id s'
       ∧ (∀ c, c ∈ tbl_commands s' ↔
               c ∈ tbl_commands s ∧ commands.agent_id c ≠ agent_id)
       ∧ (∀ a, a ∈ tbl_agents s' ↔ a ∈ tbl_agents s ∧ agents.id a ≠ agent_id)).
Proof.
  split.
  - intros Hno%select_agent_None. unfold delete_agent. by rewrite Hno.
  - intros [a Ha]%select_agent_is_Some. cbn zeta.
    unfold delete_agent. rewrite Ha. cbn.
    split; [done|]. split; [|split].
    + unfold agent_exists. cbn.
      intros (b & Hid & [Hne _]%list_elem_of_filter)%list_elem_of_fmap. done.
    + intros c. rewrite list_elem_of_filter. tauto.
    + intros b. rewrite list_elem_of_filter. tauto.
Qed.

Lemma delete_agent_cascades_witness :
  ¬ agent_exists "ghost" (run rs_reported init)
  ∧ delete_agent "ghost" 50 (run rs_reported init)
    = (Error 404 "Agent non trouvé", run rs_reported init)
  ∧ agent_exists "a1" (run rs_reported init)
  ∧ (delete_agent "a1" 50 (run rs_reported init)).1 = OK ()
  ∧ ¬ agent_exists "a1" (delete_agent "a1" 50 (run rs_reported init)).2.
Proof.
  assert (¬ agent_exists "ghost" (run rs_reported init)) as Hno
    by (by apply select_agent_None).
  assert (agent_exists "a1" (run rs_reported init)) as Hagent
    by (apply select_agent_is_Some; vm_compute; eauto).
  split; [exact Hno|]. split; [|split; [exact Hagent|]].
  - exact (proj1 (delete_agent_cascades "ghost" 50 (run rs_reported init)) Hno).
  - pose proof (proj2 (delete_agent_cascades "a1" 50 (run rs_reported init)) Hagent)
      as (Hok & Hgone & _).
    exact (conj Hok Hgone).
Defined.

(** ** Registration *)





(** ** The execution policy of the agent runtime *)

Section execute_command.
Import C2Agent.

Implicit Types (h : Host) (command : string).

Local Ltac unfold_exec :=
  unfold mbind, Exec_bind, mret, Exec_ret, call, try_except in *.

Lemma not_invokes_shell_nil : ¬ invokes_shell [].
Proof. intros (c & d & Hin). by apply elem_of_nil in Hin. Qed.

Lemma not_invokes_shell_cons x calls :
  (∀ c d, x ≠ shell c d) → ¬ invokes_shell calls → ¬ invokes_shell (x :: calls).
Proof.
  intros Hx Hcalls (c & d & Hin).
  apply elem_of_cons in Hin as [Heq|Hin]; [by eapply Hx|].
  apply Hcalls. by exists c, d.
Qed.

Local Ltac no_shell :=
  repeat (apply not_invokes_shell_cons; [discriminate|]);
  apply not_invokes_shell_nil.

(** The built-in commands are not on the denylist. *)
Lemma builtin_not_forbidden command :
  command ∈ ["pwd"; "whoami"; "hostname"] ∨ command = "sysinfo" →
  is_forbidden command = false.
Proof.
  intros [Hin| ->]; [|reflexivity].
  repeat (apply elem_of_cons in Hin as [->|Hin]; [reflexivity|]).
  by apply elem_of_nil in Hin.
Qed.

(** The branch of the directory change never raises and never reaches
    the shell. *)
Lemma execute_command_cd h command :
  String.prefix "cd " command = true →
  ∃ calls result,
    execute_command h command = (calls, Returns result) ∧ ¬ invokes_shell calls.
Proof.
  intros Hcd. unfold execute_command, execute_command_body. rewrite Hcd.
  unfold_exec.
  destruct (os_chdir h _) as [[]|e]; [destruct (os_getcwd h) as [cwd|e]|];
    cbn; eexists _, _; (split; [reflexivity|no_shell]).
Qed.

(** A denied command outside the directory change is answered with the
    marker before any call into the host. *)
Lemma execute_command_forbidden h command :
  String.prefix "cd " command = false →
  is_forbidden command = true →
  execute_command h command = ([], Returns forbidden_marker).
Proof.
  intros Hcd Hforbidden. unfold execute_command, execute_command_body.
  rewrite Hcd. case_bool_decide as Hbuiltin.
  { rewrite builtin_not_forbidden in Hforbidden; [done|by left]. }
  case_bool_decide as Hsysinfo.
  { rewrite builtin_not_forbidden in Hforbidden; [done|by right]. }
  by rewrite Hforbidden.
Qed.

(** The denylist looks at the lower-cased text, anywhere in the command. *)
Example scenario_denylist :
  execute_command bare_host "rm -rf /" = ([], Returns forbidden_marker)
  ∧ execute_command bare_host "echo ok && ShutDown -h now"
    = ([], Returns forbidden_marker)
  ∧ execute_command bare_host "ls -la"
    = ([getcwd; shell "ls -la" "/home/root"],
       Returns "Commande exécutée (code de retour: 0)").
Proof. vm_compute. repeat split. Qed.

(** [execute_command] returns, whatever the host does. *)
Lemma execute_command_returns h command :
  ∃ calls result, execute_command h command = (calls, Returns result).
Proof.
  unfold execute_command, try_except.
  destruct (execute_command_body h command) as [calls [result|[m|m]]];
    cbn; eauto.
Qed.

(** What the calls made say about the path taken: the shell is reached
    only by a command that is no built-in and is not denied, in the
    directory the host reported. *)
Lemma execute_command_shell h command c d :
  shell c d ∈ (execute_command h command).1 →
  c = command
  ∧ os_getcwd h = Returns d
  ∧ execute_command_body h command
    = ([getcwd; shell command d],
       match subprocess_run h command d with
       | Returns result =>
         Returns
           (let output :=
              if bool_decide (stderr result = "") then stdout result
              else stdout result ++ String (Ascii.ascii_of_N 10) "STDERR: "
                   ++ stderr result in
            if bool_decide (output = "")
            then "Commande exécutée (code de retour: "
                 ++ pretty (returncode result) ++ ")"
            else output)
       | Raises e => Raises e
       end).
Proof.
  destruct (String.prefix "cd " command) eqn:Hcd.
  { destruct (execute_command_cd h command Hcd) as (calls & r & -> & Hno).
    intros Hin. destruct Hno. by exists c, d. }
  unfold execute_command, execute_command_body. rewrite Hcd.
  repeat case_bool_decide; unfold_exec.
  1-4: (repeat match goal with
               | |- context [match ?o with Returns _ => _ | Raises _ => _ end] =>
                 destruct o as [?|[?|?]]
               end; cbn;
        intros Hin; exfalso; revert Hin;
        repeat (rewrite elem_of_cons; intros [Heq|Hin]; [discriminate|revert Hin]);
        apply not_elem_of_nil).
  destruct (is_forbidden command).
  { cbn. intros Hin. by apply elem_of_nil in Hin. }
  destruct (os_getcwd h) as [cwd|[m|m]]; cbn.
  2-3: (intros Hin; exfalso; revert Hin;
        repeat (rewrite elem_of_cons; intros [Heq|Hin]; [discriminate|revert Hin]);
        apply not_elem_of_nil).
  destruct (subprocess_run h command cwd) as [result|[m|m]] eqn:Hrun; cbn;
    intros Hin;
    apply elem_of_cons in Hin as [Heq|Hin]; try discriminate;
    apply elem_of_cons in Hin as [Heq|Hin]; try (by apply elem_of_nil in Hin);
    injection Heq as -> ->; rewrite Hrun; done.
Qed.
Lemma execute_all_returns work :
  ∃ calls submitted,
    execute_all work = (calls, Returns submitted)
    ∧ submitted.*1 = (λ w, w.2.1) <$> work.
Proof.
  induction work as [|[h [id command]] work (calls' & submitted & IH & Hids)].
  - by exists [], [].
  - destruct (execute_command_returns h command) as (calls & result & Hexec).
    cbn [execute_all]. rewrite Hexec, IH. unfold_exec.
    eexists _, _. split; [reflexivity|]. cbn. by rewrite Hids.
Qed.

(** C6, as amended. A command whose lower-cased text contains a pattern
    of the denylist is never handed to the host shell. Unless it starts
    with ["cd "], in which case the directory change handles it before the
    denylist is consulted, the result is the forbidden-command marker and
    no call into the host is made at all. *)
Theorem forbidden_never_reaches_shell h command :
  is_forbidden command = true →
  ¬ invokes_shell (execute_command h command).1
  ∧ (String.prefix "cd " command = false →
     execute_command h command = ([], Returns forbidden_marker)).
Proof.
  intros Hforbidden. split.
  - destruct (String.prefix "cd " command) eqn:Hcd.
    + by destruct (execute_command_cd h command Hcd) as (calls & r & -> & Hno).
    + rewrite (execute_command_forbidden h command Hcd Hforbidden).
      apply not_invokes_shell_nil.
  - intros Hcd. by apply execute_command_forbidden.
Qed.

Lemma forbidden_never_reaches_shell_witness :
  is_forbidden "sudo RM -rf /var" = true
  ∧ String.prefix "cd " "sudo RM -rf /var" = false
  ∧ execute_command bare_host "sudo RM -rf /var" = ([], Returns forbidden_marker).
Proof.
  split; [reflexivity|]. split; [reflexivity|].
  exact (proj2 (forbidden_never_reaches_shell bare_host "sudo RM -rf /var" eq_refl)
           eq_refl).
Defined.

(** C6 as stated fails for ["cd rm -rf /"]: the text contains the pattern
    ["rm -rf"], yet the result is the message of the failed directory
    change, not the forbidden-command marker. *)
Lemma forbidden_marker_counterexample :
  is_forbidden "cd rm -rf /" = true
  ∧ execute_command bare_host "cd rm -rf /"
    = ([chdir "rm -rf /"],
       Returns "Erreur cd: [Errno 2] No such file or directory: 'rm -rf /'")
  ∧ (execute_command bare_host "cd rm -rf /").2 ≠ Returns forbidden_marker.
Proof. vm_compute. repeat split; discriminate. Qed.

(** C7. [execute_command] is total: for every command and every
    behaviour of the host it returns a result text and raises nothing.
    When the shell runs out of its 30 seconds the result is the timeout
    text; any other exception raised on the way becomes an error text;
    and the loop over the commands of a check-in submits one result per
    command, whatever happened to the commands before. *)
Theorem execute_command_total h command :
  (∃ result, (execute_command h command).2 = Returns result)
  ∧ (∀ cwd m,
       shell command cwd ∈ (execute_command h command).1 →
       subprocess_run h command cwd = Raises (TimeoutExpired m) →
       (execute_command h command).2 = Returns timeout_marker)
  ∧ (∀ m,
       (execute_command_body h command).2 = Raises (OtherException m) →
       (execute_command h command).2 = Returns ("❌ Erreur d'exécution: " ++ m))
  ∧ (∀ work, ∃ submitted,
       (execute_all work).2 = Returns submitted
       ∧ submitted.*1 = (λ w, w.2.1) <$> work).
Proof.
  split; [|split; [|split]].
  - destruct (execute_command_returns h command) as (calls & result & ->).
    by exists result.
  - intros cwd m Hshell Hrun.
    apply execute_command_shell in Hshell as (_ & _ & Hbody).
    unfold execute_command. by rewrite Hbody, Hrun.
  - intros m Hbody. unfold execute_command.
    destruct (execute_command_body h command) as [calls r].
    cbn in Hbody. by subst r.
  - intros work.
    destruct (execute_all_returns work) as (calls & submitted & -> & Hids).
    by exists submitted.
Qed.

Lemma execute_command_total_witness :
  shell "sleep 60" "/home/root" ∈ (execute_command slow_host "sleep 60").1
  ∧ subprocess_run slow_host "sleep 60" "/home/root"
    = Raises (TimeoutExpired "Command 'sleep 60' timed out after 30 seconds")
  ∧ (execute_command slow_host "sleep 60").2 = Returns timeout_marker.
Proof.
  assert (shell "sleep 60" "/home/root" ∈ (execute_command slow_host "sleep 60").1)
    as Hshell by (vm_compute; apply list_elem_of_further, list_elem_of_here).
  split; [exact Hshell|]. split; [reflexivity|].
  exact (proj1 (proj2 (execute_command_total slow_host "sleep 60"))
           "/home/root" "Command 'sleep 60' timed out after 30 seconds"
           Hshell eq_refl).
Defined.
End execute_command.

(** * Further properties of the controller *)

(** ** The table of agents along a run *)

Lemma handle_disconnect_agents sid now s :
  tbl_agents (handle_disconnect sid now s) = tbl_agents s.
Proof.
  unfold handle_disconnect.
  apply (foldl_log_preserves (λ st, tbl_agents st = tbl_agents s)); done.
Qed.


Lemma touch_row_id agent_id now a : agents.id (touch_row agent_id now a) = agents.id a.
Proof. unfold touch_row. by case_bool_decide. Qed.

Lemma touch_ids agent_id now (l : list agents.row) :
  agents.id <$> (touch_row agent_id now <$> l) = agents.id <$> l.
Proof.
  rewrite <- list_fmap_compose. apply list_fmap_ext.
  intros ? a _. cbn. apply touch_row_id.
Qed.

(** The ids of the agents after one request: the same, or one fresh id
    more, or the same without one id. *)
Lemma handle_agent_ids r s :
  agents.id <$> tbl_agents (handle r s) = agents.id <$> tbl_agents s
  ∨ (∃ uuid4, ¬ agent_exists uuid4 s
        ∧ agents.id <$> tbl_agents (handle r s)
          = ((agents.id <$> tbl_agents s) ++ [uuid4])%list)
  ∨ (∃ agent_id,
        tbl_agents (handle r s)
        = filter (λ a, agents.id a ≠ agent_id) (tbl_agents s)).
Proof.
  destruct r as [data uuid4 key now|agent_id now|agent_id command now
                |data addr uuid4 key now|agent_id now|agent_id cid res now
                |agent_id sid|sid now]; cbn [handle].
  - unfold add_agent_manually.
    destruct (missing_required_field data); [by left|].
    destruct (select_agent_by_ip _ s); [by left|].
    destruct (select_agent uuid4 s) eqn:Hsel; [by left|].
    right; left. exists uuid4. split; [by apply select_agent_None|].
    cbn. by rewrite fmap_app.
  - unfold delete_agent. destruct (select_agent agent_id s); [|by left].
    right; right. by exists agent_id.
  - left. unfold send_command. destruct (negb (truthy command)); [done|].
    destruct (select_agent agent_id s); done.
  - destruct (register_agent_cases data addr uuid4 key now s)
      as [(h & u & o & caps & _ & Hsel & ->)|[_ ->]]; [|by left].
    right; left. exists uuid4. split; [by apply select_agent_None|].
    cbn. by rewrite fmap_app.
  - left. cbn. apply touch_ids.
  - left. by rewrite (proj1 (submit_result_frame agent_id cid res now s)).
  - left. unfold handle_join_agent. destruct (truthy agent_id); done.
  - left. by rewrite handle_disconnect_agents.
Qed.

Lemma handle_agents_nodup r s :
  NoDup (agents.id <$> tbl_agents s) → NoDup (agents.id <$> tbl_agents (handle r s)).
Proof.
  intros Hnodup.
  destruct (handle_agent_ids r s) as [-> |[(u & Hfresh & ->)|(a & ->)]].
  - done.
  - apply NoDup_app. split; [done|]. split; [|apply NoDup_singleton].
    intros i Hi ->%list_elem_of_singleton. by apply Hfresh.
  - eapply sublist_NoDup; [exact Hnodup|]. apply fmap_sublist, sublist_filter.
Qed.

Lemma reachable_agents_nodup s : reachable s → NoDup (agents.id <$> tbl_agents s).
Proof.
  intros [rs ->]. induction rs as [|r rs IH] using rev_ind; [constructor|].
  rewrite run_snoc. by apply handle_agents_nodup.
Qed.

Lemma select_agent_elem agent_id s a :
  select_agent agent_id s = Some a → a ∈ tbl_agents s ∧ agents.id a = agent_id.
Proof.
  unfold select_agent. intros [Hin Hid]%find_some.
  split; [by apply list_elem_of_In|]. by apply bool_decide_eq_true in Hid.
Qed.

Lemma select_agent_unique agent_id s a :
  NoDup (agents.id <$> tbl_agents s) →
  a ∈ tbl_agents s → agents.id a = agent_id → select_agent agent_id s = Some a.
Proof.
  unfold select_agent. induction (tbl_agents s) as [|b l IH];
    intros Hnodup Ha Hid; [by apply elem_of_nil in Ha|].
  cbn in Hnodup. apply NoDup_cons in Hnodup as [Hb Hnodup].
  cbn. case_bool_decide as Hbi.
  - apply elem_of_cons in Ha as [->|Ha]; [done|].
    exfalso. apply Hb. rewrite Hbi, <- Hid. by apply list_elem_of_fmap_2.
  - apply elem_of_cons in Ha as [->|Ha]; [done|]. by apply IH.
Qed.

(** X1. In every state the controller can reach no two stored agents share
    an id, so that the lookup by id finds every stored agent. *)
Theorem agent_ids_unique (s : State) :
  reachable s →
  NoDup (agents.id <$> tbl_agents s)
  ∧ ∀ a, a ∈ tbl_agents s → select_agent (agents.id a) s = Some a.
Proof.
  intros Hnodup%reachable_agents_nodup. split; [done|].
  intros a Ha. by apply select_agent_unique.
Qed.

Lemma agent_ids_unique_witness :
  reachable (run rs_registered init)
  ∧ NoDup (agents.id <$> tbl_agents (run rs_registered init)).
Proof.
  assert (reachable (run rs_registered init)) as Hreach by (by exists rs_registered).
  split; [exact Hreach|].
  exact (proj1 (agent_ids_unique (run rs_registered init) Hreach)).
Defined.

(** ** Refused requests *)

(** X3. A request that is refused has no effect: whenever
    [add_agent_manually], [delete_agent], [send_command] or [register_agent]
    answers with an error, the state is left exactly as it was and nothing
    is emitted. *)
Theorem refused_requests_change_nothing (s : State) :
  (∀ data uuid4 key now code error,
     (add_agent_manually data uuid4 key now s).1 = Error code error →
     (add_agent_manually data uuid4 key now s).2 = s)
  ∧ (∀ agent_id now code error,
       (delete_agent agent_id now s).1 = Error code error →
       (delete_agent agent_id now s).2 = s)
  ∧ (∀ agent_id command now code error,
       (send_command agent_id command now s).1.1 = Error code error →
       (send_command agent_id command now s).1.2 = s
       ∧ (send_command agent_id command now s).2 = [])
  ∧ (∀ data remote_addr uuid4 key now code error,
       (register_agent data remote_addr uuid4 key now s).1 = Error code error →
       (register_agent data remote_addr uuid4 key now s).2 = s).
Proof.
  split; [|split; [|split]].
  - intros data uuid4 key now code error. unfold add_agent_manually.
    destruct (missing_required_field data); [done|].
    destruct (select_agent_by_ip _ s); [done|].
    destruct (select_agent uuid4 s); done.
  - intros agent_id now code error. unfold delete_agent.
    destruct (select_agent agent_id s); done.
  - intros agent_id command now code error. unfold send_command.
    destruct (negb (truthy command)); [done|].
    destruct (select_agent agent_id s); done.
  - intros data remote_addr uuid4 key now code error.
    by destruct (register_agent_cases data remote_addr uuid4 key now s)
      as [(h & u & o & caps & _ & _ & ->)|[_ ->]].
Qed.

Lemma refused_requests_change_nothing_witness :
  (delete_agent "ghost" 5 (run rs_queued init)).1 = Error 404 "Agent non trouvé"
  ∧ (delete_agent "ghost" 5 (run rs_queued init)).2 = run rs_queued init.
Proof.
  split; [reflexivity|].
  exact (proj1 (proj2 (refused_requests_change_nothing (run rs_queued init)))
           "ghost" 5 404 "Agent non trouvé" eq_refl).
Defined.

(** ** Manual admission *)






(** ** Command ids *)

Lemma StronglySorted_filter_fmap {A B} (R : relation B) (f : A → B) (P : A → Prop)
    `{!∀ x, Decision (P x)} (l : list A) :
  StronglySorted R (f <$> l) → StronglySorted R (f <$> filter P l).
Proof.
  induction l as [|x l IH]; [done|].
  cbn [fmap list_fmap]. intros [Hl Hx]%StronglySorted_inv.
  destruct (decide (P x)).
  - rewrite filter_cons_True by done. cbn. constructor; [by apply IH|].
    rewrite Forall_fmap in Hx |- *. rewrite Forall_forall in Hx |- *.
    intros y [_ Hy]%list_elem_of_filter. by apply Hx.
  - rewrite filter_cons_False by done. by apply IH.
Qed.

Lemma handle_ids_sorted r s :
  0 ≤ commands_seq s →
  StronglySorted Z.lt (commands.id <$> tbl_commands s) →
  Forall (λ c, 0 < commands.id c ≤ commands_seq s) (tbl_commands s) →
  0 ≤ commands_seq (handle r s)
  ∧ StronglySorted Z.lt (commands.id <$> tbl_commands (handle r s))
  ∧ Forall (λ c, 0 < commands.id c ≤ commands_seq (handle r s))
           (tbl_commands (handle r s)).
Proof.
  intros Hseq Hsorted Hall.
  destruct (handle_commands_shape r s)
    as [[-> ->]|[(a & cid & res & now & -> & ->)|[(a & -> & ->)|(a & t & now & -> & ->)]]].
  - done.
  - split; [done|]. split.
    + rewrite <- list_fmap_compose.
      erewrite list_fmap_ext; [exact Hsorted|].
      intros ? c _. cbn. apply complete_row_id.
    + apply Forall_fmap. eapply Forall_impl; [exact Hall|].
      intros c Hc. cbn. by rewrite complete_row_id.
  - split; [done|]. split; [by apply StronglySorted_filter_fmap|].
    rewrite Forall_forall in Hall |- *.
    intros c [_ Hc]%list_elem_of_filter. by apply Hall.
  - split; [lia|]. split.
    + rewrite fmap_app. apply StronglySorted_app_2; [|done|by repeat constructor].
      intros i j (c & -> & Hc)%list_elem_of_fmap ->%list_elem_of_singleton.
      rewrite Forall_forall in Hall. pose proof (Hall c Hc). cbn. lia.
    + apply Forall_app. split.
      * eapply Forall_impl; [exact Hall|]. intros c Hc. cbn in Hc. lia.
      * apply Forall_singleton. cbn. lia.
Qed.

(** X5. In every state the controller can reach, the command ids grow
    strictly along the ledger and lie between 1 and the counter; an id that
    has been handed out and whose command is gone (its agent was deleted) is
    never given to another command. *)
Theorem command_ids_never_reused (s : State) :
  reachable s →
  StronglySorted Z.lt (commands.id <$> tbl_commands s)
  ∧ Forall (λ c, 0 < commands.id c ≤ commands_seq s) (tbl_commands s)
  ∧ ∀ rs i, i ≤ commands_seq s → lookup_command i s = None →
            lookup_command i (run rs s) = None.
Proof.
  intros [rs0 ->].
  assert (0 ≤ commands_seq (run rs0 init)
          ∧ StronglySorted Z.lt (commands.id <$> tbl_commands (run rs0 init))
          ∧ Forall (λ c, 0 < commands.id c ≤ commands_seq (run rs0 init))
                   (tbl_commands (run rs0 init))) as (_ & Hsorted & Hall).
  { induction rs0 as [|r rs0 (IH1 & IH2 & IH3)] using rev_ind.
    - cbn. split; [done|]. split; constructor.
    - rewrite run_snoc. by apply handle_ids_sorted. }
  split; [done|]. split; [done|].
  intros rs i. apply run_stays_gone.
Qed.

Lemma command_ids_never_reused_witness :
  reachable (run (rs_reported ++ [DELETE_agent "a1" 30]) init)
  ∧ lookup_command 1
      (run [POST_register box_data "10.0.0.8" "a2" "a2V5Mg==" 31;
            POST_agent_commands "a2" (Some "pwd") 32]
         (run (rs_reported ++ [DELETE_agent "a1" 30]) init)) = None.
Proof.
  assert (reachable (run (rs_reported ++ [DELETE_agent "a1" 30]) init)) as Hreach
    by (by eexists).
  split; [exact Hreach|].
  exact (proj2 (proj2 (command_ids_never_reused _ Hreach))
           [POST_register box_data "10.0.0.8" "a2" "a2V5Mg==" 31;
            POST_agent_commands "a2" (Some "pwd") 32] 1
           ltac:(vm_compute; discriminate) eq_refl).
Defined.

(** ** Completed commands *)

(** X6. Completion is final. Once a command is completed in a reachable
    state, then after any further requests it is either gone or still
    completed, and no check-in of any agent hands it out again. *)
Theorem completed_is_final (s : State) (rs : list Request) (i : Z) (c : commands.row) :
  reachable s →
  lookup_command i s = Some c →
  commands.status c = "completed" →
  (∀ c', lookup_command i (run rs s) = Some c' → commands.status c' = "completed")
  ∧ (∀ agent_id now l now',
       (agent_checkin agent_id now (run rs s)).1 = OK (l, now') → i ∉ l.*1).
Proof.
  intros Hreach Hc Hdone.
  pose proof (reachable_ledger_inv s Hreach) as Hinv.
  assert (∀ c', lookup_command i (run rs s) = Some c' →
                commands.status c' = "completed") as Hfinal.
  { intros c' Hc'. destruct (run_monotone rs s i c c' Hinv Hc Hc') as [Hle _].
    rewrite Hdone in Hle. by inversion Hle. }
  split; [exact Hfinal|].
  intros agent_id now l now' [= <- _].
  unfold checkin_body. rewrite <- list_fmap_compose.
  intros (c' & Hid & Hc')%list_elem_of_fmap. cbn in Hid.
  apply elem_of_select_pending in Hc' as (Hc' & _ & Hpending). cbn in Hc'.
  destruct (run_ledger_inv rs s Hinv) as [Hnodup _].
  assert (lookup_command i (run rs s) = Some c') as Hlook
    by by apply lookup_command_Some.
  apply Hfinal in Hlook. congruence.
Qed.

Lemma completed_is_final_witness :
  reachable (run rs_reported init)
  ∧ (agent_checkin "a1" 50
       (run [POST_agent_commands "a1" (Some "id") 40] (run rs_reported init))).1
    = OK ([(2, "id")], 50)
  ∧ 1 ∉ ([(2, "id")] : list (Z * string)).*1.
Proof.
  assert (reachable (run rs_reported init)) as Hreach by (by exists rs_reported).
  split; [exact Hreach|].
  split; [reflexivity|].
  exact (proj2 (completed_is_final (run rs_reported init)
                  [POST_agent_commands "a1" (Some "id") 40] 1
                  (commands.mk 1 "a1" "whoami" "completed" 10 (Some 21) (Some "root"))
                  Hreach eq_refl eq_refl)
           "a1" 50 [(2, "id")] 50 eq_refl).
Defined.

(** ** The liveness update of a check-in *)

Lemma touch_other agent_id now (l : list agents.row) :
  agent_id ∉ agents.id <$> l → touch_row agent_id now <$> l = l.
Proof.
  induction l as [|a l IH]; [done|].
  cbn [fmap list_fmap]. intros Hnot.
  apply not_elem_of_cons in Hnot as [Hne Hnot].
  cbn. f_equal; [|by apply IH].
  unfold touch_row. by rewrite bool_decide_eq_false_2.
Qed.

Lemma set_agents_same s : set_agents (tbl_agents s) s = s.
Proof. by destruct s. Qed.

Lemma filter_none {A} (P : A → Prop) `{!∀ x, Decision (P x)} (l : list A) :
  (∀ x, x ∈ l → ¬ P x) → filter P l = [].
Proof.
  induction l as [|x l IH]; [done|]. intros Hall.
  rewrite filter_cons_False; [|apply Hall; by left].
  apply IH. intros y Hy. apply Hall. by right.
Qed.

(** X7. A check-in under an id that no stored agent carries is answered
    like any other and leaves the state, whatever it is, exactly as it was:
    the controller neither stores nor reports the unknown id. The answer
    holds the pending commands stored under that id, oldest first; it holds
    no command exactly when no pending command carries the id. *)
Theorem checkin_of_unknown_agent (agent_id : string) (now : Z) (s : State) :
  ¬ agent_exists agent_id s →
  (agent_checkin agent_id now s).2 = s
  ∧ (agent_checkin agent_id now s).1
    = OK (checkin_body (select_pending agent_id s), now)
  ∧ ((agent_checkin agent_id now s).1 = OK ([], now) ↔
     ∀ c, c ∈ tbl_commands s → ¬ is_pending_for agent_id c).
Proof.
  intros Hno.
  assert (agent_checkin agent_id now s
          = (OK (checkin_body (select_pending agent_id s), now), s)) as ->.
  { unfold agent_checkin. by rewrite (touch_other _ _ _ Hno), set_agents_same. }
  split; [done|]. split; [done|]. cbn [fst]. split.
  - intros [= Hnil] c Hc Hpending.
    apply fmap_nil_inv in Hnil.
    assert (c ∈ select_pending agent_id s) as Hin
      by (apply elem_of_select_pending; by destruct Hpending).
    rewrite Hnil in Hin. by apply elem_of_nil in Hin.
  - intros Hall. unfold select_pending. by rewrite filter_none.
Qed.

Lemma checkin_of_unknown_agent_witness :
  ¬ agent_exists "ghost" (run rs_queued init)
  ∧ agent_checkin "ghost" 20 (run rs_queued init)
    = (OK ([], 20), run rs_queued init).
Proof.
  assert (¬ agent_exists "ghost" (run rs_queued init)) as Hno
    by (by apply select_agent_None).
  split; [exact Hno|].
  pose proof (checkin_of_unknown_agent "ghost" 20 (run rs_queued init) Hno)
    as (Hstate & Hbody & _).
  rewrite (surjective_pairing (agent_checkin "ghost" 20 (run rs_queued init))).
  rewrite Hstate, Hbody. reflexivity.
Defined.

(** ** A deletion between the two statements of [send_command] *)

(** Served without interruption, the two parts make [send_command]. *)
Lemma send_command_steps agent_id command now s :
  send_command agent_id command now s
  = match send_command_lookup agent_id command s with
    | OK _ => send_command_insert agent_id command now s
    | Error code error => (Error code error, s, [])
    end.
Proof.
  unfold send_command, send_command_lookup, send_command_insert.
  destruct (negb (truthy command)); [done|].
  by destruct (select_agent agent_id s).
Qed.

(** X2. The controller does not keep commands with stored agents.
    [send_command] reads the agent and inserts the command in two
    statements, and nothing ties the insert to the agents table. When the
    lookup for a stored agent has passed and [delete_agent] for that agent
    is served before the insert, both requests succeed, and the command is
    stored pending under the id of an agent that is no longer stored: it
    is the whole history under that id, and every check-in under that id
    returns it. Served after the deletion as a whole, the same request is
    refused as not found. *)
Theorem delete_between_lookup_and_insert (agent_id command : string)
    (now now' : Z) (s : State) :
  command ≠ "" →
  agent_exists agent_id s →
  let s1 := (delete_agent agent_id now s).2 in
  let s2 := (send_command_insert agent_id (Some command) now' s1).1.2 in
  let c := commands.mk (commands_seq s + 1) agent_id command "pending" now'
             None None in
  send_command_lookup agent_id (Some command) s = OK ()
  ∧ (delete_agent agent_id now s).1 = OK ()
  ∧ (send_command_insert agent_id (Some command) now' s1).1.1
    = OK (commands_seq s + 1)
  ∧ tbl_commands s2
    = (filter (λ d, commands.agent_id d ≠ agent_id) (tbl_commands s) ++ [c])%list
  ∧ ¬ agent_exists agent_id s2
  ∧ orphan_pending s2 c
  ∧ get_agent_commands agent_id s2 = [c]
  ∧ (∀ t, agent_checkin agent_id t s2
          = (OK ([(commands_seq s + 1, command)], t), s2))
  ∧ send_command agent_id (Some command) now' s1
    = (Error 404 "Agent non trouvé", s1, []).
Proof.
  intros Hne Hagent. pose proof Hagent as [a Ha]%select_agent_is_Some. cbn zeta.
  assert (∀ st, tbl_agents st = filter (λ b, agents.id b ≠ agent_id) (tbl_agents s) →
                ¬ agent_exists agent_id st) as Hgone.
  { intros st Hst. unfold agent_exists. rewrite Hst.
    by intros (b & Hid & [Hb _]%list_elem_of_filter)%list_elem_of_fmap. }
  unfold send_command_lookup. rewrite (truthy_Some _ Hne), Ha. cbn [negb].
  split; [done|].
  unfold delete_agent. rewrite Ha. cbn [fst snd].
  split; [done|]. split; [done|].
  set (rest := filter (λ d, commands.agent_id d ≠ agent_id) (tbl_commands s)).
  set (c := commands.mk (commands_seq s + 1) agent_id command "pending" now'
              None None).
  assert (∀ d, d ∈ rest → commands.agent_id d ≠ agent_id) as Hrest
    by (by intros d [Hd _]%list_elem_of_filter).
  split; [done|].
  match goal with |- ¬ agent_exists _ ?st ∧ _ => set (s2 := st) end.
  assert (¬ agent_exists agent_id s2) as Hno by (by apply Hgone).
  assert (tbl_commands s2 = (rest ++ [c])%list) as Htbl by done.
  split; [exact Hno|]. split; [by split|]. split; [|split].
  - unfold get_agent_commands. rewrite Htbl, filter_app.
    rewrite (filter_none _ rest) by (intros d Hd; by apply Hrest).
    by rewrite filter_cons_True.
  - intros t. unfold agent_checkin.
    rewrite (touch_other _ _ _ Hno), set_agents_same.
    unfold select_pending. rewrite Htbl, filter_app.
    rewrite (filter_none _ rest) by (intros d Hd [Hd' _]; by apply (Hrest d)).
    by rewrite filter_cons_True.
  - unfold send_command. rewrite (truthy_Some _ Hne). cbn [negb].
    match goal with |- context [select_agent agent_id ?st] => set (s1 := st) end.
    assert (select_agent agent_id s1 = None) as ->; [|done].
    apply select_agent_None. by apply Hgone.
Qed.

Lemma delete_between_lookup_and_insert_witness :
  let s := run rs_registered init in
  let s2 := (send_command_insert "a1" (Some "id") 12
               (delete_agent "a1" 11 s).2).1.2 in
  agent_exists "a1" s
  ∧ tbl_agents s2 = []
  ∧ tbl_commands s2 = [commands.mk 1 "a1" "id" "pending" 12 None None]
  ∧ agent_checkin "a1" 20 s2 = (OK ([(1, "id")], 20), s2).
Proof.
  cbn zeta.
  assert (agent_exists "a1" (run rs_registered init)) as Hagent
    by (apply select_agent_is_Some; vm_compute; eauto).
  pose proof (delete_between_lookup_and_insert "a1" "id" 11 12
                (run rs_registered init) ltac:(discriminate) Hagent)
    as (_ & _ & _ & Htbl & _ & _ & _ & Hcheckin & _).
  split; [exact Hagent|]. split; [reflexivity|].
  split; [exact Htbl|exact (Hcheckin 20)].
Defined.

(** ** The liveness update of a check-in, continued *)

Lemma find_touch agent_id now (l : list agents.row) b :
  find (λ a, bool_decide (agents.id a = b)) (touch_row agent_id now <$> l)
  = touch_row agent_id now <$> find (λ a, bool_decide (agents.id a = b)) l.
Proof.
  induction l as [|a l IH]; [done|].
  cbn. rewrite touch_row_id. by case_bool_decide.
Qed.

(** X8. A check-in stamps the agent that makes it: its row gets the
    current time as last-seen time and the status active, whatever the
    status was (a manually admitted agent stops being manual), while its
    other columns and the rows of all other agents stay as they were. *)
Theorem checkin_touches_agent (agent_id : string) (now : Z) (s : State) :
  let s' := (agent_checkin agent_id now s).2 in
  (∀ a, select_agent agent_id s = Some a →
        select_agent agent_id s'
        = Some (agents.mk agent_id (agents.hostname a) (agents.username a)
                  (agents.os_info a) (agents.ip_address a) (agents.first_seen a)
                  now "active" (agents.encryption_key a) (agents.capabilities a)))
  ∧ (∀ b, b ≠ agent_id → select_agent b s' = select_agent b s)
  ∧ connected_agents s' = connected_agents s.
Proof.
  cbn zeta. split; [|split; [|done]].
  - intros a Ha. unfold select_agent in *. cbn. rewrite find_touch, Ha. cbn.
    apply find_some in Ha as [_ Hid]. apply bool_decide_eq_true in Hid.
    unfold touch_row. rewrite bool_decide_eq_true_2 by done. by rewrite Hid.
  - intros b Hne. unfold select_agent. cbn. rewrite find_touch.
    destruct (find _ (tbl_agents s)) as [a|] eqn:Hfind; [|done]. cbn.
    apply find_some in Hfind as [_ Hid]. apply bool_decide_eq_true in Hid.
    unfold touch_row. rewrite bool_decide_eq_false_2; [done|congruence].
Qed.

Lemma checkin_touches_agent_witness :
  select_agent "a1" (agent_checkin "a1" 77 (run rs_registered init)).2
  = Some (agents.mk "a1" (Some "box") (Some "root") (Some "Linux 6.1") "10.0.0.7"
            1 77 "active" "a2V5" (JArray [JString "command_execution"])).
Proof.
  exact (proj1 (checkin_touches_agent "a1" 77 (run rs_registered init))
           (agents.mk "a1" (Some "box") (Some "root") (Some "Linux 6.1") "10.0.0.7"
              1 1 "active" "a2V5" (JArray [JString "command_execution"])) eq_refl).
Defined.

(** ** Presence *)







(** ** The operator views *)

Section stable_sort.
Context {A : Type} (le : A → A → Prop) `{!∀ x y, Decision (le x y)}.
Hypothesis le_total : ∀ x y, le x y ∨ le y x.
Hypothesis le_trans : ∀ x y z, le x y → le y z → le x z.

Lemma insert_by_perm x l : insert_by le x l ≡ₚ x :: l.
Proof.
  induction l as [|y l IH]; [done|].
  cbn. destruct (decide (le x y)); [done|].
  rewrite IH. apply Permutation_swap.
Qed.

Lemma sort_by_perm l : sort_by le l ≡ₚ l.
Proof.
  induction l as [|x l IH]; [done|].
  cbn. rewrite insert_by_perm. by constructor.
Qed.

Lemma insert_by_sorted x l :
  StronglySorted le l → StronglySorted le (insert_by le x l).
Proof.
  induction 1 as [|y l Hsorted IH Hy]; cbn.
  - by repeat constructor.
  - destruct (decide (le x y)) as [Hxy|Hxy].
    + constructor; [by constructor|].
      constructor; [done|]. eapply Forall_impl; [exact Hy|].
      intros z Hz. by eapply le_trans.
    + constructor; [exact IH|]. rewrite insert_by_perm.
      constructor; [|done]. by destruct (le_total x y).
Qed.

Lemma sort_by_sorted l : StronglySorted le (sort_by le l).
Proof.
  induction l as [|x l IH]; [constructor|].
  cbn. by apply insert_by_sorted.
Qed.
End stable_sort.

Lemma seen_ge_total a b : seen_ge a b ∨ seen_ge b a.
Proof. unfold seen_ge. lia. Qed.

Lemma seen_ge_trans a b c : seen_ge a b → seen_ge b c → seen_ge a c.
Proof. unfold seen_ge. lia. Qed.

Lemma created_ge_total c d : created_ge c d ∨ created_ge d c.
Proof. unfold created_ge. lia. Qed.

Lemma created_ge_trans c d e : created_ge c d → created_ge d e → created_ge c e.
Proof. unfold created_ge. lia. Qed.

(** X11. The history of an agent is the list of its 100 most recently
    created commands, newest first: together with the commands it leaves
    out it makes up all the commands of the agent, none of those left out
    is newer than one that is shown, and nothing is left out while the agent
    has at most 100 commands. An agent without commands, stored or not, has
    the empty history. *)
Theorem history_is_newest_hundred (agent_id : string) (s : State) :
  let all := filter (λ c, commands.agent_id c = agent_id) (tbl_commands s) in
  ∃ older,
    (get_agent_commands agent_id s ++ older)%list ≡ₚ all
    ∧ StronglySorted created_ge (get_agent_commands agent_id s ++ older)%list
    ∧ length (get_agent_commands agent_id s) = (100 `min` length all)%nat
    ∧ ((length all ≤ 100)%nat → older = []).
Proof.
  cbn zeta. unfold get_agent_commands.
  set (all := filter _ (tbl_commands s)).
  exists (drop 100 (sort_by created_ge all)).
  rewrite take_drop. split; [apply sort_by_perm|].
  split; [apply sort_by_sorted; [apply created_ge_total|apply created_ge_trans]|].
  split.
  - by rewrite length_take, (Permutation_length (sort_by_perm created_ge all)).
  - intros Hle. apply drop_ge.
    by rewrite (Permutation_length (sort_by_perm created_ge all)).
Qed.

Lemma history_is_newest_hundred_witness :
  length (get_agent_commands "a1" (run rs_reported init)) = 1%nat.
Proof.
  destruct (history_is_newest_hundred "a1" (run rs_reported init))
    as (older & _ & _ & Hlen & _).
  exact Hlen.
Defined.

(** X12. The listing of the agents shows every stored agent exactly once,
    the most recently seen first, and marks an agent as online exactly when
    a session is recorded for its id. *)
Theorem listing_shows_every_agent (s : State) :
  (∃ rows, rows ≡ₚ tbl_agents s ∧ get_agents s = agent_info s <$> rows)
  ∧ i_id <$> get_agents s ≡ₚ agents.id <$> tbl_agents s
  ∧ StronglySorted (λ x y, i_last_seen y ≤ i_last_seen x) (get_agents s)
  ∧ Forall (λ x, i_online x = true ↔ is_Some (connected_agents s !! i_id x))
           (get_agents s).
Proof.
  unfold get_agents. split; [|split; [|split]].
  - exists (sort_by seen_ge (tbl_agents s)). split; [apply sort_by_perm|done].
  - rewrite <- list_fmap_compose. by rewrite (sort_by_perm seen_ge (tbl_agents s)).
  - eapply StronglySorted_fmap;
      [|apply sort_by_sorted; [apply seen_ge_total|apply seen_ge_trans]].
    by intros a b Hab.
  - apply Forall_fmap, Forall_forall. intros a _. cbn.
    apply bool_decide_eq_true.
Qed.

(** X13. An agent that checks in at a time later than every recorded
    last-seen time heads the listing of the agents, as active and with
    that time. *)
Theorem checkin_heads_listing (agent_id : string) (now : Z) (s : State) :
  agent_exists agent_id s →
  Forall (λ a, agents.last_seen a < now) (tbl_agents s) →
  ∃ info,
    head (get_agents (agent_checkin agent_id now s).2) = Some info
    ∧ i_id info = agent_id
    ∧ i_last_seen info = now
    ∧ i_status info = "active".
Proof.
  intros (a0 & Hid0 & Ha0)%list_elem_of_fmap Hold.
  unfold get_agents. cbn [agent_checkin snd set_agents tbl_agents].
  set (rows := sort_by seen_ge (touch_row agent_id now <$> tbl_agents s)).
  assert (rows ≡ₚ touch_row agent_id now <$> tbl_agents s) as Hperm
    by apply sort_by_perm.
  assert (StronglySorted seen_ge rows) as Hsorted
    by (apply sort_by_sorted; [apply seen_ge_total|apply seen_ge_trans]).
  assert (touch_row agent_id now a0 ∈ rows) as Hin.
  { rewrite Hperm. by apply list_elem_of_fmap_2. }
  assert (agents.last_seen (touch_row agent_id now a0) = now) as Hnow.
  { unfold touch_row. by rewrite bool_decide_eq_true_2. }
  destruct rows as [|h rows]; [by apply elem_of_nil in Hin|].
  exists (agent_info (agent_checkin agent_id now s).2 h). split; [done|]. cbn.
  assert (now ≤ agents.last_seen h) as Hh.
  { apply elem_of_cons in Hin as [<-|Hin]; [lia|].
    apply StronglySorted_inv in Hsorted as [_ Hall].
    rewrite Forall_forall in Hall. specialize (Hall _ Hin).
    unfold seen_ge in Hall. lia. }
  assert (h ∈ touch_row agent_id now <$> tbl_agents s) as Hh'.
  { rewrite <- Hperm. by left. }
  apply list_elem_of_fmap in Hh' as (a & -> & Ha).
  unfold touch_row in *. case_bool_decide as Hida; [done|].
  rewrite Forall_forall in Hold. specialize (Hold a Ha). lia.
Qed.

Lemma checkin_heads_listing_witness :
  agent_exists "a1" (run rs_registered init)
  ∧ Forall (λ a, agents.last_seen a < 77) (tbl_agents (run rs_registered init))
  ∧ ∃ info,
      head (get_agents (agent_checkin "a1" 77 (run rs_registered init)).2) = Some info
      ∧ i_id info = "a1" ∧ i_last_seen info = 77 ∧ i_status info = "active".
Proof.
  assert (agent_exists "a1" (run rs_registered init)) as Hagent
    by (apply select_agent_is_Some; vm_compute; eauto).
  assert (Forall (λ a, agents.last_seen a < 77) (tbl_agents (run rs_registered init)))
    as Hold by (repeat constructor).
  split; [exact Hagent|]. split; [exact Hold|].
  exact (checkin_heads_listing "a1" 77 (run rs_registered init) Hagent Hold).
Defined.

(** ** The counters of [get_stats] *)

Lemma select_pending_length agent_id s :
  length (select_pending agent_id s)
  = length (filter (is_pending_for agent_id) (tbl_commands s)).
Proof. unfold select_pending. by rewrite order_by_created_at_perm. Qed.

(** Among agents with distinct ids, exactly one carries a given stored id,
    and none an id that is not stored. *)
Lemma count_owner (l : list agents.row) (agent_id : string) :
  NoDup (agents.id <$> l) →
  agent_id ∈ agents.id <$> l →
  sum_list ((λ a, if decide (agent_id = agents.id a) then 1%nat else 0%nat) <$> l)
  = 1%nat.
Proof.
  induction l as [|a l IH]; [by intros _ ?%elem_of_nil|].
  cbn [fmap list_fmap]. intros [Ha Hnodup]%NoDup_cons Hin. cbn [sum_list sum_list_with].
  destruct (decide (agent_id = agents.id a)) as [->|Hne].
  - assert (sum_list ((λ b, if decide (agents.id a = agents.id b)
                            then 1%nat else 0%nat) <$> l) = 0%nat) as ->; [|done].
    clear IH Hin Hnodup. induction l as [|b l IH]; [done|].
    cbn [fmap list_fmap] in Ha. apply not_elem_of_cons in Ha as [Hab Ha].
    cbn. rewrite decide_False by done. by apply IH.
  - apply elem_of_cons in Hin as [?|Hin]; [done|]. by rewrite IH.
Qed.

Lemma count_no_owner (l : list agents.row) (agent_id : string) :
  agent_id ∉ agents.id <$> l →
  sum_list ((λ a, if decide (agent_id = agents.id a) then 1%nat else 0%nat) <$> l)
  = 0%nat.
Proof.
  induction l as [|a l IH]; [done|].
  cbn [fmap list_fmap]. intros [Hne Hnot]%not_elem_of_cons.
  cbn. rewrite decide_False by done. by apply IH.
Qed.

(** The pending rows of [l], told apart by owner: those of the agents of
    [agents_l], and those whose agent is not among them. *)
Lemma pending_by_owner (agents_l : list agents.row) (l : list commands.row) :
  NoDup (agents.id <$> agents_l) →
  length (filter (λ c, commands.status c = "pending") l)
  = (sum_list ((λ a, length (filter (is_pending_for (agents.id a)) l)) <$> agents_l)
     + length (filter (λ c, commands.status c = "pending"
                            ∧ commands.agent_id c ∉ agents.id <$> agents_l) l))%nat.
Proof.
  intros Hnodup. induction l as [|c l IH].
  - cbn. clear Hnodup. induction agents_l as [|a agents_l IHa]; [done|].
    cbn. exact IHa.
  - assert (∀ ags : list agents.row,
              sum_list ((λ a, length (filter (is_pending_for (agents.id a)) (c :: l)))
                          <$> ags)
              = (sum_list ((λ a, if decide (is_pending_for (agents.id a) c)
                                 then 1%nat else 0%nat) <$> ags)
                 + sum_list ((λ a, length (filter (is_pending_for (agents.id a)) l))
                               <$> ags))%nat) as Hsplit.
    { induction ags as [|a ags IHa]; [done|].
      cbn [fmap list_fmap sum_list sum_list_with]. rewrite IHa.
      destruct (decide (is_pending_for (agents.id a) c)).
      - rewrite filter_cons_True by done. cbn. f_equal. apply Nat.add_shuffle3.
      - rewrite filter_cons_False by done. cbn. apply Nat.add_shuffle3. }
    rewrite Hsplit.
    destruct (decide (commands.status c = "pending")) as [Hp|Hp].
    + rewrite (filter_cons_True (λ c, commands.status c = "pending")) by done.
      cbn [length]. rewrite IH.
      assert (sum_list ((λ a, if decide (is_pending_for (agents.id a) c)
                              then 1%nat else 0%nat) <$> agents_l)
              = sum_list ((λ a, if decide (commands.agent_id c = agents.id a)
                                then 1%nat else 0%nat) <$> agents_l)) as ->.
      { f_equal. apply list_fmap_ext. intros ? a _.
        unfold is_pending_for.
        destruct (decide (commands.agent_id c = agents.id a)).
        - by rewrite decide_True.
        - by rewrite decide_False by tauto. }
      destruct (decide (commands.agent_id c ∈ agents.id <$> agents_l)) as [Hc|Hc].
      * rewrite (count_owner agents_l (commands.agent_id c) Hnodup Hc).
        rewrite filter_cons_False by tauto. done.
      * rewrite (count_no_owner agents_l (commands.agent_id c) Hc).
        rewrite (filter_cons_True (λ c, _ ∧ _)) by done. cbn [length]. lia.
    + rewrite (filter_cons_False (λ c, commands.status c = "pending")) by done.
      rewrite (filter_cons_False (λ c, _ ∧ _)) by tauto. rewrite IH.
      assert (sum_list ((λ a, if decide (is_pending_for (agents.id a) c)
                              then 1%nat else 0%nat) <$> agents_l) = 0%nat) as ->;
        [|done].
      clear -Hp. induction agents_l as [|a agents_l IHa]; [done|].
      cbn. rewrite decide_False; [done|]. unfold is_pending_for. tauto.
Qed.

(** X14. In every state in which no two stored agents share an id, the
    count of pending commands shown by the statistics is the number of
    commands that the check-ins of the stored agents would hand out, plus
    the number of pending commands whose agent is not stored; and the
    count of agents seen in the last five minutes never exceeds the count
    of agents. *)
Theorem stats_count_the_queue (now : Z) (s : State) :
  NoDup (agents.id <$> tbl_agents s) →
  pending_commands (get_stats now s)
  = (sum_list ((λ a, length (select_pending (agents.id a) s)) <$> tbl_agents s)
     + length (filter (orphan_pending s) (tbl_commands s)))%nat
  ∧ (∀ a t, a ∈ tbl_agents s →
            (agent_checkin (agents.id a) t s).1
            = OK (checkin_body (select_pending (agents.id a) s), t))
  ∧ (active_agents (get_stats now s) ≤ total_agents (get_stats now s))%nat.
Proof.
  intros Hnodup. split; [|split].
  - cbn. rewrite (pending_by_owner (tbl_agents s)) by done.
    f_equal. f_equal. apply list_fmap_ext. intros ? a _.
    by rewrite select_pending_length.
  - done.
  - cbn. apply length_filter.
Qed.

Lemma stats_count_the_queue_witness :
  let s := (send_command_insert "a1" (Some "id") 12
              (delete_agent "a1" 11 (run rs_queued init)).2).1.2 in
  NoDup (agents.id <$> tbl_agents s)
  ∧ pending_commands (get_stats 15 s) = 1%nat
  ∧ sum_list ((λ a, length (select_pending (agents.id a) s)) <$> tbl_agents s) = 0%nat
  ∧ NoDup (agents.id <$> tbl_agents (run rs_queued init))
  ∧ pending_commands (get_stats 15 (run rs_queued init)) = 1%nat
  ∧ length (filter (orphan_pending (run rs_queued init))
              (tbl_commands (run rs_queued init))) = 0%nat.
Proof.
  cbn zeta.
  assert (NoDup (agents.id <$> tbl_agents
            (send_command_insert "a1" (Some "id") 12
               (delete_agent "a1" 11 (run rs_queued init)).2).1.2)) as Hnone
    by constructor.
  assert (NoDup (agents.id <$> tbl_agents (run rs_queued init))) as Hone
    by (apply reachable_agents_nodup; by exists rs_queued).
  split; [exact Hnone|].
  split; [exact (proj1 (stats_count_the_queue 15 _ Hnone))|].
  split; [reflexivity|]. split; [exact Hone|].
  split; [exact (proj1 (stats_count_the_queue 15 _ Hone))|reflexivity].
Defined.

(** * The agent against the controller *)

(** ** One round of polling *)

Lemma execute_and_report_cases agent_id a command_id command s :
  ∃ calls result,
    C2Agent.execute_command (at_host a) command = (calls, C2Agent.Returns result)
    ∧ execute_and_report agent_id a command_id command s
      = if reaches_server (at_link a)
        then (submit_result agent_id (Some command_id) (Some result) (at_now a) s).1.2
        else s.
Proof.
  destruct (execute_command_returns (at_host a) command) as (calls & result & Hexec).
  exists calls, result. split; [done|].
  unfold execute_and_report. by rewrite Hexec.
Qed.


Lemma execute_and_report_other agent_id a command_id command s i :
  i ≠ command_id →
  lookup_command i (execute_and_report agent_id a command_id command s)
  = lookup_command i s.
Proof.
  intros Hne.
  destruct (execute_and_report_cases agent_id a command_id command s)
    as (calls & result & _ & ->).
  destruct (reaches_server (at_link a)); [|done].
  rewrite submit_result_lookup.
  destruct (lookup_command i s) as [c|] eqn:Hc; [|done]. cbn.
  apply lookup_command_elem in Hc as [_ Hid].
  unfold complete_row. rewrite bool_decide_eq_false_2; [done|].
  intros [[= Heq] _]. congruence.
Qed.

Lemma process_commands_other agent_id env k cmds s i :
  i ∉ cmds.*1 →
  lookup_command i (process_commands agent_id env k cmds s) = lookup_command i s.
Proof.
  revert k s. induction cmds as [|[command_id command] cmds IH]; intros k s Hnot;
    [done|].
  cbn in Hnot. apply not_elem_of_cons in Hnot as [Hne Hnot].
  cbn [process_commands]. rewrite IH by done.
  by apply execute_and_report_other.
Qed.





Lemma process_commands_lost agent_id env k cmds s j command_id command :
  NoDup cmds.*1 →
  cmds !! j = Some (command_id, command) →
  reaches_server (at_link (env (k + j)%nat)) = false →
  lookup_command command_id (process_commands agent_id env k cmds s)
  = lookup_command command_id s.
Proof.
  revert k s j. induction cmds as [|[id0 command0] cmds IH]; intros k s j Hnodup Hj Hlost;
    [done|].
  cbn in Hnodup. apply NoDup_cons in Hnodup as [Hid0 Hnodup].
  cbn [process_commands].
  destruct j as [|j]; cbn in Hj.
  - injection Hj as -> ->. rewrite Nat.add_0_r in Hlost.
    rewrite process_commands_other by done.
    destruct (execute_and_report_cases agent_id (env k) command_id command s)
      as (calls & result & _ & ->).
    by rewrite Hlost.
  - replace (k + S j)%nat with (S k + j)%nat in Hlost by lia.
    rewrite (IH (S k) _ j) by done.
    apply execute_and_report_other.
    intros Heq. apply Hid0. rewrite <- Heq.
    apply (list_elem_of_fmap_2' fst _ (command_id, command)); [|done].
    by apply list_elem_of_lookup_2 with j.
Qed.

(** X16. Delivery is at least once. When the post of a result does not
    reach the controller, the command stays pending in the ledger, and the
    agent's next check-in hands it out again, to be executed a second
    time. *)
Theorem lost_result_is_polled_again (agent_id : string) (now : Z)
    (env : nat → Attempt) (s : State) (j : nat) (command_id : Z) (command : string) :
  reachable s →
  (∃ l t, (agent_checkin agent_id now s).1 = OK (l, t)
          ∧ l !! j = Some (command_id, command)) →
  reaches_server (at_link (env j)) = false →
  let s' := checkin_round agent_id round_trip now env s in
  (∃ c, lookup_command command_id s' = Some c ∧ commands.status c = "pending")
  ∧ ∀ now', ∃ l',
      (agent_checkin agent_id now' s').1 = OK (l', now')
      ∧ (command_id, command) ∈ l'.
Proof.
  intros Hreach (l & t & [= <- <-] & Hj) Hlost. cbn zeta.
  pose proof (reachable_ledger_inv s Hreach) as [Hnodup _].
  unfold checkin_round, agent_checkin.
  set (s1 := set_agents (touch_row agent_id now <$> tbl_agents s) s) in *.
  set (cmds := (λ cmd, (commands.id cmd, commands.command cmd))
                 <$> select_pending agent_id s1) in *.
  assert (NoDup cmds.*1) as Hcmds.
  { unfold cmds. rewrite <- list_fmap_compose.
    unfold select_pending. rewrite order_by_created_at_perm.
    eapply sublist_NoDup; [exact Hnodup|].
    apply fmap_sublist, sublist_filter. }
  assert ((command_id, command) ∈ cmds) as Hin by by eapply list_elem_of_lookup_2.
  apply list_elem_of_fmap in Hin as (c & [= -> ->] & Hc).
  apply elem_of_select_pending in Hc as (Hc & Hagent & Hpending).
  assert (lookup_command (commands.id c) (process_commands agent_id env 0 cmds s1)
          = Some c) as Hlook.
  { rewrite (process_commands_lost agent_id env 0 cmds s1 j _ _ Hcmds Hj Hlost).
    by apply lookup_command_Some. }
  split; [by exists c|].
  intros now'. eexists. split; [reflexivity|].
  apply (list_elem_of_fmap_2' (λ cmd, (commands.id cmd, commands.command cmd)) _ c);
    [|done].
  apply elem_of_select_pending. cbn.
  by apply lookup_command_elem in Hlook as [Hlook _].
Qed.

Lemma lost_result_is_polled_again_witness :
  reachable (run rs_queued init)
  ∧ reaches_server (at_link (offline_attempt 0%nat)) = false
  ∧ ∃ l', (agent_checkin "a1" 60
             (checkin_round "a1" round_trip 20 offline_attempt (run rs_queued init))).1
          = OK (l', 60)
          ∧ (1, "whoami") ∈ l'.
Proof.
  assert (reachable (run rs_queued init)) as Hreach by (by exists rs_queued).
  split; [exact Hreach|]. split; [reflexivity|].
  exact (proj2 (lost_result_is_polled_again "a1" 20 offline_attempt
                  (run rs_queued init) 0 1 "whoami" Hreach
                  (ex_intro _ [(1, "whoami")] (ex_intro _ 20 (conj eq_refl eq_refl)))
                  eq_refl) 60).
Defined.

(** * Further properties of the execution policy *)

Section denylist.
Import C2Agent.

Lemma append_cons c a b : String c a ++ b = String c (a ++ b).
Proof. reflexivity. Qed.

Lemma lower_app a b : lower (a ++ b) = lower a ++ lower b.
Proof.
  induction a as [|c a IH]; [done|].
  rewrite append_cons. cbn [lower]. by rewrite append_cons, IH.
Qed.

Lemma string_prefix_app_r pat s q :
  String.prefix pat s = true → String.prefix pat (s ++ q) = true.
Proof.
  revert pat. induction s as [|d s IH]; intros pat Hpre.
  - destruct pat; [destruct q; reflexivity|discriminate Hpre].
  - destruct pat as [|c pat]; rewrite append_cons; [reflexivity|].
    cbn [String.prefix] in *.
    destruct (Ascii.ascii_dec c d); [by apply IH|done].
Qed.

Lemma contains_unfold pat s :
  contains pat s
  = String.prefix pat s
    || match s with EmptyString => false | String _ s' => contains pat s' end.
Proof. by destruct s. Qed.

Lemma contains_app_r pat s q : contains pat s = true → contains pat (s ++ q) = true.
Proof.
  induction s as [|c s IH].
  - rewrite contains_unfold, orb_false_r. intros Hpre.
    rewrite contains_unfold. apply orb_true_iff. left.
    by apply (string_prefix_app_r pat "" q).
  - rewrite contains_unfold. intros [Hpre|Hin]%orb_true_iff.
    + rewrite contains_unfold. apply orb_true_iff. left.
      by apply (string_prefix_app_r pat (String c s) q).
    + rewrite append_cons, contains_unfold. apply orb_true_iff. right.
      by apply IH.
Qed.

Lemma contains_app_l pat p s : contains pat s = true → contains pat (p ++ s) = true.
Proof.
  intros Hin. induction p as [|c p IH]; [done|].
  rewrite append_cons, contains_unfold. apply orb_true_iff. by right.
Qed.

Lemma is_forbidden_wrapped p command q :
  is_forbidden command = true → is_forbidden (p ++ command ++ q) = true.
Proof.
  unfold is_forbidden. rewrite !existsb_exists.
  intros (pat & Hpat & Hin). exists pat. split; [done|].
  cbn beta in *. rewrite !lower_app. by apply contains_app_l, contains_app_r.
Qed.

(** X17. The denylist cannot be evaded by wrapping. When a command is
    denied, so is every command text that contains it, or a variant of it
    that differs only in the case of its letters, whatever is put before or
    after; none of these texts is ever handed to the host shell. *)
Theorem denied_command_stays_denied (h : Host) (p command variant q : string) :
  is_forbidden command = true →
  lower variant = lower command →
  is_forbidden (p ++ variant ++ q) = true
  ∧ ¬ invokes_shell (execute_command h (p ++ variant ++ q)).1.
Proof.
  intros Hforbidden Hcase.
  assert (is_forbidden variant = true) as Hvariant.
  { unfold is_forbidden in *. rewrite existsb_exists in *.
    destruct Hforbidden as (pat & Hpat & Hin). exists pat. split; [done|].
    cbn beta in *. by rewrite Hcase. }
  pose proof (is_forbidden_wrapped p variant q Hvariant) as Hwrapped.
  split; [done|].
  destruct (String.prefix "cd " (p ++ variant ++ q)) eqn:Hcd.
  - by destruct (execute_command_cd h _ Hcd) as (calls & r & -> & Hno).
  - rewrite (execute_command_forbidden h _ Hcd Hwrapped). apply not_invokes_shell_nil.
Qed.

Lemma denied_command_stays_denied_witness :
  is_forbidden "rm -rf" = true
  ∧ lower "Rm -RF" = lower "rm -rf"
  ∧ is_forbidden ("sudo " ++ "Rm -RF" ++ " /var/log") = true
  ∧ ¬ invokes_shell (execute_command bare_host ("sudo " ++ "Rm -RF" ++ " /var/log")).1.
Proof.
  split; [reflexivity|]. split; [reflexivity|].
  exact (denied_command_stays_denied bare_host "sudo " "rm -rf" "Rm -RF" " /var/log"
           eq_refl eq_refl).
Defined.

(** X18. What reaches the shell is the command as it came. When
    [execute_command] calls the host shell, it does so once, with the
    command text unchanged and in the working directory that the host
    reported; the command is then no directory change and is not on the
    denylist, and the only other call into the host is the one asking for
    the working directory. *)
Theorem shell_gets_the_command_verbatim (h : Host) (command c d : string) :
  shell c d ∈ (execute_command h command).1 →
  c = command
  ∧ os_getcwd h = Returns d
  ∧ (execute_command h command).1 = [getcwd; shell command d]
  ∧ String.prefix "cd " command = false
  ∧ is_forbidden command = false.
Proof.
  intros Hin. pose proof Hin as (-> & Hcwd & Hbody)%execute_command_shell.
  split; [done|]. split; [done|].
  assert (String.prefix "cd " command = false) as Hcd.
  { destruct (String.prefix "cd " command) eqn:Hcd; [|done].
    destruct (execute_command_cd h command Hcd) as (calls & r & Heq & Hno).
    rewrite Heq in Hin. destruct Hno. by exists command, d. }
  split; [|split; [done|]].
  - unfold execute_command, try_except. rewrite Hbody.
    destruct (subprocess_run h command d) as [result|[m|m]]; done.
  - destruct (is_forbidden command) eqn:Hforbidden; [|done].
    rewrite (execute_command_forbidden h command Hcd Hforbidden) in Hin.
    by apply elem_of_nil in Hin.
Qed.

Lemma shell_gets_the_command_verbatim_witness :
  shell "ls -la" "/home/root" ∈ (execute_command bare_host "ls -la").1
  ∧ (execute_command bare_host "ls -la").1 = [getcwd; shell "ls -la" "/home/root"].
Proof.
  assert (shell "ls -la" "/home/root" ∈ (execute_command bare_host "ls -la").1)
    as Hin by (vm_compute; apply list_elem_of_further, list_elem_of_here).
  split; [exact Hin|].
  exact (proj1 (proj2 (proj2
           (shell_gets_the_command_verbatim bare_host "ls -la" "ls -la" "/home/root"
              Hin)))).
Defined.
End denylist.

(** * The activity log and the identity of agents *)

Lemma handle_log_grows r s :
  tbl_activity_logs s `prefix_of` tbl_activity_logs (handle r s).
Proof.
  assert (∀ now level source message st,
            tbl_activity_logs s `prefix_of` tbl_activity_logs st →
            tbl_activity_logs s
              `prefix_of` tbl_activity_logs (log_activity now level source message st))
    as Hlog.
  { intros now level source message st Hst. cbn. by apply prefix_app_r. }
  destruct r as [data uuid4 key now|agent_id now|agent_id command now
                |data addr uuid4 key now|agent_id now|agent_id cid res now
                |agent_id sid|sid now]; cbn [handle].
  - unfold add_agent_manually.
    destruct (missing_required_field data); [done|].
    destruct (select_agent_by_ip _ s); [done|].
    destruct (select_agent uuid4 s); [done|]. by apply Hlog.
  - unfold delete_agent. destruct (select_agent agent_id s); [|done]. by apply Hlog.
  - unfold send_command. destruct (negb (truthy command)); [done|].
    destruct (select_agent agent_id s); [|done]. by apply Hlog.
  - destruct (register_agent_cases data addr uuid4 key now s)
      as [(h & u & o & caps & _ & _ & ->)|[_ ->]]; [|done]. by apply Hlog.
  - done.
  - destruct (submit_result_cases agent_id cid res now s) as [[_ ->]|[_ ->]];
      [|done]. by apply Hlog.
  - unfold handle_join_agent. destruct (truthy agent_id); done.
  - unfold handle_disconnect.
    apply (foldl_log_preserves
             (λ st, tbl_activity_logs s `prefix_of` tbl_activity_logs st)); [|done].
    intros m st. apply Hlog.
Qed.

(** X19. The activity log is append-only: whatever requests the controller
    serves, the log it had before is an initial segment of the log it has
    afterwards; no entry is ever changed or removed. *)
Theorem activity_log_is_append_only (rs : list Request) (s : State) :
  tbl_activity_logs s `prefix_of` tbl_activity_logs (run rs s).
Proof.
  induction rs as [|r rs IH] using rev_ind; [done|].
  rewrite run_snoc. etrans; [exact IH|]. apply handle_log_grows.
Qed.

(** ** After the deletion of an agent *)




(** ** The identity of a stored agent *)

Lemma find_app_Some {A} (f : A → bool) (l k : list A) x :
  find f l = Some x → find f (l ++ k) = Some x.
Proof.
  induction l as [|y l IH]; [done|].
  cbn. destruct (f y); [done|exact IH].
Qed.

(** The columns of an agent that no request rewrites. *)
Lemma handle_keeps_identity r s agent_id a :
  NoDup (agents.id <$> tbl_agents s) →
  select_agent agent_id s = Some a →
  (∀ now, r ≠ DELETE_agent agent_id now) →
  ∃ a', select_agent agent_id (handle r s) = Some a'
        ∧ agents.id a' = agents.id a
        ∧ agents.hostname a' = agents.hostname a
        ∧ agents.username a' = agents.username a
        ∧ agents.os_info a' = agents.os_info a
        ∧ agents.ip_address a' = agents.ip_address a
        ∧ agents.first_seen a' = agents.first_seen a
        ∧ agents.encryption_key a' = agents.encryption_key a
        ∧ agents.capabilities a' = agents.capabilities a.
Proof.
  intros Hnodup Ha Hkept.
  assert (∀ s', tbl_agents s' = tbl_agents s →
                ∃ a', select_agent agent_id s' = Some a'
                      ∧ agents.id a' = agents.id a
                      ∧ agents.hostname a' = agents.hostname a
                      ∧ agents.username a' = agents.username a
                      ∧ agents.os_info a' = agents.os_info a
                      ∧ agents.ip_address a' = agents.ip_address a
                      ∧ agents.first_seen a' = agents.first_seen a
                      ∧ agents.encryption_key a' = agents.encryption_key a
                      ∧ agents.capabilities a' = agents.capabilities a) as Hsame.
  { intros s' Htbl. exists a. unfold select_agent in *. by rewrite Htbl. }
  assert (∀ s' b, tbl_agents s' = (tbl_agents s ++ [b])%list →
                  ∃ a', select_agent agent_id s' = Some a'
                        ∧ agents.id a' = agents.id a
                        ∧ agents.hostname a' = agents.hostname a
                        ∧ agents.username a' = agents.username a
                        ∧ agents.os_info a' = agents.os_info a
                        ∧ agents.ip_address a' = agents.ip_address a
                        ∧ agents.first_seen a' = agents.first_seen a
                        ∧ agents.encryption_key a' = agents.encryption_key a
                        ∧ agents.capabilities a' = agents.capabilities a) as Hgrow.
  { intros s' b Htbl. exists a. unfold select_agent in *. rewrite Htbl.
    by rewrite (find_app_Some _ _ _ _ Ha). }
  destruct r as [data uuid4 key now|b now|b command now
                |data addr uuid4 key now|b now|b cid res now
                |b sid|sid now]; cbn [handle].
  - unfold add_agent_manually.
    destruct (missing_required_field data); [by apply Hsame|].
    destruct (select_agent_by_ip _ s); [by apply Hsame|].
    destruct (select_agent uuid4 s); [by apply Hsame|]. by eapply Hgrow.
  - unfold delete_agent. destruct (select_agent b s); [|by apply Hsame].
    exists a. split; [|done]. cbn [snd].
    apply select_agent_elem in Ha as [Ha Hid].
    apply select_agent_unique; [| |done].
    + cbn. eapply sublist_NoDup; [exact Hnodup|].
      apply fmap_sublist, sublist_filter.
    + cbn. apply list_elem_of_filter. split; [|done].
      rewrite Hid. intros ->. by apply (Hkept now).
  - unfold send_command. destruct (negb (truthy command)); [by apply Hsame|].
    destruct (select_agent b s); by apply Hsame.
  - destruct (register_agent_cases data addr uuid4 key now s)
      as [(h & u & o & caps & _ & _ & ->)|[_ ->]]; [by eapply Hgrow|by apply Hsame].
  - exists (touch_row b now a). split.
    + unfold select_agent in *. cbn. by rewrite find_touch, Ha.
    + unfold touch_row. by case_bool_decide.
  - apply Hsame. apply submit_result_frame.
  - unfold handle_join_agent. destruct (truthy b); by apply Hsame.
  - apply Hsame, handle_disconnect_agents.
Qed.

(** X21. The identity of an agent is stable and its key is never rotated.
    Along any run in which the agent is not deleted, the agent stays stored
    and keeps its id, host, user, platform, address, first-seen time,
    capabilities and issued key; only its last-seen time and its status
    change. *)
Theorem agent_identity_is_stable (rs : list Request) (s : State)
    (agent_id : string) (a : agents.row) :
  reachable s →
  select_agent agent_id s = Some a →
  Forall (λ r, ∀ now, r ≠ DELETE_agent agent_id now) rs →
  ∃ a', select_agent agent_id (run rs s) = Some a'
        ∧ agents.id a' = agents.id a
        ∧ agents.hostname a' = agents.hostname a
        ∧ agents.username a' = agents.username a
        ∧ agents.os_info a' = agents.os_info a
        ∧ agents.ip_address a' = agents.ip_address a
        ∧ agents.first_seen a' = agents.first_seen a
        ∧ agents.encryption_key a' = agents.encryption_key a
        ∧ agents.capabilities a' = agents.capabilities a.
Proof.
  intros Hreach Ha Hkept.
  induction rs as [|r rs IH] using rev_ind.
  - exists a. by repeat split.
  - apply Forall_app in Hkept as [Hrs Hr]. apply Forall_cons in Hr as [Hr _].
    destruct (IH Hrs) as (a1 & Ha1 & Hid & Hh & Hu & Ho & Hip & Hfs & Hkey & Hcap).
    rewrite run_snoc.
    destruct (handle_keeps_identity r (run rs s) agent_id a1)
      as (a' & Ha' & Hid' & Hh' & Hu' & Ho' & Hip' & Hfs' & Hkey' & Hcap');
      [|exact Ha1|exact Hr|].
    + apply reachable_agents_nodup. destruct Hreach as [rs0 ->].
      exists (rs0 ++ rs)%list. by rewrite run_app.
    + exists a'. repeat split; congruence.
Qed.

Lemma agent_identity_is_stable_witness :
  reachable (run rs_registered init)
  ∧ Forall (λ r, ∀ now, r ≠ DELETE_agent "a1" now)
      [POST_checkin "a1" 20; POST_agent_commands "a1" (Some "id") 21]
  ∧ ∃ a', select_agent "a1"
            (run [POST_checkin "a1" 20; POST_agent_commands "a1" (Some "id") 21]
               (run rs_registered init)) = Some a'
          ∧ agents.encryption_key a' = "a2V5".
Proof.
  assert (reachable (run rs_registered init)) as Hreach by (by exists rs_registered).
  assert (Forall (λ r, ∀ now, r ≠ DELETE_agent "a1" now)
            [POST_checkin "a1" 20; POST_agent_commands "a1" (Some "id") 21]) as Hkept
    by (repeat constructor; discriminate).
  split; [exact Hreach|]. split; [exact Hkept|].
  destruct (agent_identity_is_stable
              [POST_checkin "a1" 20; POST_agent_commands "a1" (Some "id") 21]
              (run rs_registered init) "a1"
              (agents.mk "a1" (Some "box") (Some "root") (Some "Linux 6.1") "10.0.0.7"
                 1 1 "active" "a2V5" (JArray [JString "command_execution"]))
              Hreach eq_refl Hkept)
    as (a' & Ha' & _ & _ & _ & _ & _ & _ & Hkey & _).
  exists a'. exact (conj Ha' Hkey).
Defined.

(** * The push path, end to end *)


